(** * Diff-position tracker and review cache of dhp-pr-review-bot

    Shallow embedding of [your_bot_module.py] ([get_cached_reviewed_lines],
    [post_metadata_comment], [generate_review_comments]) and of the driver
    script [pr_review.py].  Python strings are modelled as [string] (byte
    strings), Python ints as [Z], a Python dict as an insertion-ordered
    association list (the order is observable through [json.dumps]). *)

From Stdlib Require Import String Ascii List ZArith NArith Bool Lia.
Import ListNotations.

Open Scope string_scope.

(** ** Python builtins used by the module *)

(** [s.startswith(pre)] *)
Definition startswith (s pre : string) : bool := String.prefix pre s.

(** [s.split(sep)] for a one-character separator; the empty string splits
    into one empty piece. *)
Fixpoint split_on (sep : ascii) (s : string) : list string :=
  match s with
  | EmptyString => [EmptyString]
  | String c s' =>
      if Ascii.eqb c sep then EmptyString :: split_on sep s'
      else match split_on sep s' with
           | [] => [String c EmptyString]
           | w :: ws => String c w :: ws
           end
  end.

Definition newline : ascii := Ascii.ascii_of_nat 10.
Definition nl : string := String newline EmptyString.

(** [x in xs] for a list (or a set built from it) of ints. *)
Definition mem (x : Z) (xs : list Z) : bool := existsb (Z.eqb x) xs.

(** A Python dict with string keys, in insertion order. *)
Definition dict (V : Type) := list (string * V).

(** [d.get(k)] *)
Fixpoint dict_get {V} (k : string) (d : dict V) : option V :=
  match d with
  | [] => None
  | (k', v) :: d' => if String.eqb k k' then Some v else dict_get k d'
  end.

(** [d[k] = v]: an existing key keeps its place, a new key goes last. *)
Fixpoint dict_set {V} (k : string) (v : V) (d : dict V) : dict V :=
  match d with
  | [] => [(k, v)]
  | (k', v') :: d' =>
      if String.eqb k k' then (k', v) :: d' else (k', v') :: dict_set k v d'
  end.

(** ** Data model *)

(** A changed file as returned by [pr.get_files()]; [patch] may be [None]. *)
Record File := mkFile {
  filename : string;
  patch : option string;
  status : string
}.

(** An inline review comment [{"path", "position", "body"}]. *)
Record Comment := mkComment {
  path : string;
  position : Z;
  cbody : string
}.

(** The review cache: file path to the positions already reviewed. *)
Definition Cache := dict (list Z).

Definition suggestion_body : string :=
  "💡 Review suggestion by dhp-pr-review-bot: Consider reviewing this line.".

(** ** [generate_review_comments]

    [list(set(xs))] lists the distinct elements of [xs] in the hash-table
    order of CPython's [set]; that order is left as the parameter
    [set_list] of the section.  Membership in [set(xs)] is membership in
    [xs]. *)

Section Review.

Variable set_list : list Z -> list Z.

(** [line.startswith("+") and not line.startswith("++")] *)
Definition is_added_line (line : string) : bool :=
  startswith line "+" && negb (startswith line "++").

(** [not file.patch or file.status == 'removed'] *)
Definition skip_file (file : File) : bool :=
  match patch file with
  | None => true
  | Some p => String.eqb p "" || String.eqb (status file) "removed"
  end.

(** The inner loop [for line in patch_lines]: threads [position],
    [comments] and [new_cache]. *)
Fixpoint review_lines (fname : string) (reviewed_positions : list Z)
    (pos : Z) (lines : list string) (comments : list Comment)
    (new_cache : Cache) : list Comment * Cache :=
  match lines with
  | [] => (comments, new_cache)
  | line :: rest =>
      let pos := (pos + 1)%Z in
      if is_added_line line then
        if negb (mem pos reviewed_positions) then
          let entry := match dict_get fname new_cache with
                       | Some e => e | None => [] end in
          review_lines fname reviewed_positions pos rest
            (app comments [mkComment fname pos suggestion_body])
            (dict_set fname (app entry [pos]) new_cache)
        else review_lines fname reviewed_positions pos rest comments new_cache
      else review_lines fname reviewed_positions pos rest comments new_cache
  end.

(** The outer loop [for file in pr.get_files()]. *)
Fixpoint review_files (cache : Cache) (files : list File)
    (comments : list Comment) (new_cache : Cache) : list Comment * Cache :=
  match files with
  | [] => (comments, new_cache)
  | file :: rest =>
      match patch file with
      | None => review_files cache rest comments new_cache
      | Some p =>
          if String.eqb p "" || String.eqb (status file) "removed" then
            review_files cache rest comments new_cache
          else
            let fname := filename file in
            let reviewed_positions :=
              match dict_get fname cache with Some l => l | None => [] end in
            let new_cache := dict_set fname (set_list reviewed_positions) new_cache in
            let '(comments, new_cache) :=
              review_lines fname reviewed_positions 0%Z (split_on newline p)
                comments new_cache in
            review_files cache rest comments new_cache
      end
  end.

(** [generate_review_comments(pr, cache)], [files] being [pr.get_files()]. *)
Definition generate_review_comments (files : list File) (cache : Cache)
    : list Comment * Cache :=
  review_files cache files [] [].

End Review.

(** What is known of [list(set(xs))] whatever the hash-table order: it
    lists each element of [xs] exactly once. *)
Definition set_list_spec (set_list : list Z -> list Z) : Prop :=
  forall xs, NoDup (set_list xs) /\ (forall x, In x (set_list xs) <-> In x xs).

(** ** The spec's reading of positions: the 1-based indices, in the full
    ['\n']-split line sequence, of the lines starting with ['+'] but not
    with ["++"]. *)
Definition added_positions (p : string) : list Z :=
  let lines := split_on newline p in
  map Z.of_nat
    (filter (fun i => is_added_line (nth (i - 1) lines "")) (seq 1 (length lines))).

Definition sample_patch : string :=
  "@@ -1,2 +1,3 @@" ++ nl ++ "-foo" ++ nl ++ "+bar" ++ nl ++ "+baz" ++ nl ++ " context".

(** ** Auxiliary views of the loops used in the proofs *)

(** Added-line positions of [lines], numbered after [pos]. *)
Fixpoint added_from (pos : Z) (lines : list string) : list Z :=
  match lines with
  | [] => []
  | line :: rest =>
      if is_added_line line then (pos + 1)%Z :: added_from (pos + 1) rest
      else added_from (pos + 1) rest
  end.

(** The added positions that are not yet reviewed. *)
Definition fresh_positions (reviewed : list Z) (lines : list string) : list Z :=
  filter (fun x => negb (mem x reviewed)) (added_from 0 lines).

Definition cached_positions (cache : Cache) (fname : string) : list Z :=
  match dict_get fname cache with Some l => l | None => [] end.

Definition mk_comments (fname : string) (xs : list Z) : list Comment :=
  map (fun x => mkComment fname x suggestion_body) xs.

(** Comments contributed by one file record. *)
Definition file_comments (cache : Cache) (file : File) : list Comment :=
  match patch file with
  | None => []
  | Some p =>
      if skip_file file then []
      else mk_comments (filename file)
             (fresh_positions (cached_positions cache (filename file))
                (split_on newline p))
  end.

(** Cache entry written for one non-skipped file record. *)
Definition file_entry (set_list : list Z -> list Z) (cache : Cache) (file : File)
    : list Z :=
  match patch file with
  | None => []
  | Some p =>
      let old := cached_positions cache (filename file) in
      app (set_list old) (fresh_positions old (split_on newline p))
  end.

(** The last non-skipped record named [k]: the one whose entry survives. *)
Fixpoint last_record (k : string) (files : list File) : option File :=
  match files with
  | [] => None
  | f :: rest =>
      match last_record k rest with
      | Some g => Some g
      | None => if String.eqb (filename f) k && negb (skip_file f) then Some f
                else None
      end
  end.

(** ** JSON values and CPython's [json] module

    The C accelerator of CPython's [json] ([_json.c]) is the default:
    [scan_once_unicode], [_parse_object_unicode], [_parse_array_unicode],
    [scanstring_unicode], [_match_number_unicode].  Text is modelled as a
    byte string; a [\uXXXX] escape is stored as the UTF-8 bytes of its code
    point (a lone surrogate as its three-byte form).  The parser runs on
    fuel; one unit per character is enough.  Two limits of the interpreter
    are not part of [json_loads] and [json_dumps_indent2]: nesting deeper
    than the recursion limit raises [RecursionError], and an [int] of more
    than 4300 decimal digits raises [ValueError] when read or written.
    Wherever [json_loads] fails CPython fails too; properties that need
    [json.loads] or [json.dumps] to succeed assume [in_limits] below. *)

Inductive json : Type :=
| JNull
| JBool (b : bool)
| JInt (z : Z)
| JFloat (lit : string)
| JStr (s : string)
| JArr (items : list json)
| JObj (members : list (string * json)).

Definition ch (n : nat) : ascii := ascii_of_nat n.
Definition quote : ascii := ch 34.
Definition backslash : ascii := ch 92.
Definition q : string := String quote EmptyString.

(** [WHITESPACE = ' \t\n\r'] *)
Definition is_ws (c : ascii) : bool :=
  Ascii.eqb c " "%char || Ascii.eqb c (ch 9) || Ascii.eqb c (ch 10) || Ascii.eqb c (ch 13).

Fixpoint skip_ws (s : string) : string :=
  match s with
  | EmptyString => EmptyString
  | String c r => if is_ws c then skip_ws r else s
  end.

Definition is_digit (c : ascii) : bool :=
  (48 <=? nat_of_ascii c)%nat && (nat_of_ascii c <=? 57)%nat.

(** Longest prefix of decimal digits, and the rest. *)
Fixpoint span_digits (s : string) : string * string :=
  match s with
  | String c r =>
      if is_digit c then let '(ds, rest) := span_digits r in (String c ds, rest)
      else (EmptyString, s)
  | EmptyString => (EmptyString, EmptyString)
  end.

Fixpoint z_of_digits_acc (acc : Z) (s : string) : Z :=
  match s with
  | EmptyString => acc
  | String c r => z_of_digits_acc (acc * 10 + Z.of_nat (nat_of_ascii c - 48))%Z r
  end.

(** [s[:len(pre)] == pre], returning the rest. *)
Fixpoint strip_prefix (pre s : string) : option string :=
  match pre, s with
  | EmptyString, _ => Some s
  | String a pre', String b s' => if Ascii.eqb a b then strip_prefix pre' s' else None
  | String _ _, EmptyString => None
  end.

(** The optional fraction [(\.\d+)?] and exponent [([eE][-+]?\d+)?]. *)
Definition match_frac (s : string) : option (string * string) :=
  match s with
  | String c r =>
      if Ascii.eqb c "."%char then
        match span_digits r with
        | (EmptyString, _) => None
        | (ds, rest) => Some (String c ds, rest)
        end
      else None
  | EmptyString => None
  end.

Definition match_exp (s : string) : option (string * string) :=
  match s with
  | String c r =>
      if Ascii.eqb c "e"%char || Ascii.eqb c "E"%char then
        let '(sign, r') :=
          match r with
          | String d r'' =>
              if Ascii.eqb d "-"%char || Ascii.eqb d "+"%char
              then (String d EmptyString, r'') else (EmptyString, r)
          | EmptyString => (EmptyString, r)
          end in
        match span_digits r' with
        | (EmptyString, _) => None
        | (ds, rest) => Some (String c (sign ++ ds), rest)
        end
      else None
  | EmptyString => None
  end.

(** [_match_number_unicode]: an optional minus, then "0" or a non-zero
    digit and more digits, then the optional fraction and exponent; an int
    when neither fraction nor exponent is present. *)
(** The optional leading minus sign. *)
Definition split_sign (s : string) : bool * string :=
  match s with
  | String c r => if Ascii.eqb c "-"%char then (true, r) else (false, s)
  | EmptyString => (false, s)
  end.

(** The integer part: "0", or a non-zero digit followed by digits. *)
Definition match_int (s1 : string) : option (string * string) :=
  match s1 with
  | String c r =>
      if Ascii.eqb c "0"%char then Some (String c EmptyString, r)
      else if is_digit c then
        let '(ds, rest) := span_digits r in Some (String c ds, rest)
      else None
  | EmptyString => None
  end.

Definition parse_number (s : string) : option (json * string) :=
  let '(neg, s1) := split_sign s in
  let ipart := match_int s1 in
  match ipart with
  | None => None
  | Some (int_s, r1) =>
      let sign_s := if neg then "-" else "" in
      match match_frac r1 with
      | Some (frac_s, r2) =>
          match match_exp r2 with
          | Some (exp_s, r3) => Some (JFloat (sign_s ++ int_s ++ frac_s ++ exp_s), r3)
          | None => Some (JFloat (sign_s ++ int_s ++ frac_s), r2)
          end
      | None =>
          match match_exp r1 with
          | Some (exp_s, r3) => Some (JFloat (sign_s ++ int_s ++ exp_s), r3)
          | None =>
              let z := z_of_digits_acc 0%Z int_s in
              Some (JInt (if neg then (- z)%Z else z), r1)
          end
      end
  end.

Definition hex_val (c : ascii) : option Z :=
  let n := nat_of_ascii c in
  if ((48 <=? n) && (n <=? 57))%nat then Some (Z.of_nat (n - 48))
  else if ((97 <=? n) && (n <=? 102))%nat then Some (Z.of_nat (n - 87))
  else if ((65 <=? n) && (n <=? 70))%nat then Some (Z.of_nat (n - 55))
  else None.

Definition hex4 (a b c d : ascii) : option Z :=
  match hex_val a, hex_val b, hex_val c, hex_val d with
  | Some x, Some y, Some z, Some w => Some (((x * 16 + y) * 16 + z) * 16 + w)%Z
  | _, _, _, _ => None
  end.

Definition byte (z : Z) : ascii := ascii_of_nat (Z.to_nat z).

(** The UTF-8 bytes of a code point. *)
Definition utf8 (u : Z) : string :=
  if (u <? 128)%Z then String (byte u) EmptyString
  else if (u <? 2048)%Z then
    String (byte (192 + u / 64)%Z) (String (byte (128 + u mod 64)%Z) EmptyString)
  else if (u <? 65536)%Z then
    String (byte (224 + u / 4096)%Z)
      (String (byte (128 + (u / 64) mod 64)%Z) (String (byte (128 + u mod 64)%Z) EmptyString))
  else
    String (byte (240 + u / 262144)%Z)
      (String (byte (128 + (u / 4096) mod 64)%Z)
         (String (byte (128 + (u / 64) mod 64)%Z) (String (byte (128 + u mod 64)%Z) EmptyString))).

(** The one-character escapes: a backslash followed by a quote, a
    backslash, a slash, b, f, n, r or t. *)
Definition simple_escape (e : ascii) : option ascii :=
  if Ascii.eqb e quote then Some quote
  else if Ascii.eqb e backslash then Some backslash
  else if Ascii.eqb e "/"%char then Some "/"%char
  else if Ascii.eqb e "b"%char then Some (ch 8)
  else if Ascii.eqb e "f"%char then Some (ch 12)
  else if Ascii.eqb e "n"%char then Some (ch 10)
  else if Ascii.eqb e "r"%char then Some (ch 13)
  else if Ascii.eqb e "t"%char then Some (ch 9)
  else None.

Definition prepend (pre : string) (o : option (string * string)) : option (string * string) :=
  match o with
  | Some (str, rest) => Some (pre ++ str, rest)
  | None => None
  end.

(** [scanstring_unicode] with [strict=True], started after the opening
    quote: returns the decoded text and what follows the closing quote. *)
Fixpoint scan_string (s : string) : option (string * string) :=
  match s with
  | EmptyString => None
  | String c r =>
      if Ascii.eqb c quote then Some (EmptyString, r)
      else if Ascii.eqb c backslash then
        match r with
        | EmptyString => None
        | String e r1 =>
            match simple_escape e with
            | Some d => prepend (String d EmptyString) (scan_string r1)
            | None =>
                if Ascii.eqb e "u"%char then
                  match r1 with
                  | String h1 (String h2 (String h3 (String h4 r2))) =>
                      match hex4 h1 h2 h3 h4 with
                      | None => None
                      | Some u =>
                          if ((55296 <=? u) && (u <=? 56319))%Z then
                            match r2 with
                            | String b1 (String b2 (String k1 (String k2 (String k3 (String k4 r3))))) =>
                                if Ascii.eqb b1 backslash && Ascii.eqb b2 "u"%char then
                                  match hex4 k1 k2 k3 k4 with
                                  | None => None
                                  | Some u2 =>
                                      if ((56320 <=? u2) && (u2 <=? 57343))%Z then
                                        prepend (utf8 (65536 + (u - 55296) * 1024 + (u2 - 56320))%Z)
                                          (scan_string r3)
                                      else prepend (utf8 u) (scan_string r2)
                                  end
                                else prepend (utf8 u) (scan_string r2)
                            | _ => prepend (utf8 u) (scan_string r2)
                            end
                          else prepend (utf8 u) (scan_string r2)
                      end
                  | _ => None
                  end
                else None
            end
        end
      else if (nat_of_ascii c <? 32)%nat then None
      else prepend (String c EmptyString) (scan_string r)
  end.

(** [scan_once_unicode] and the object and array loops. *)
Fixpoint parse_value (fuel : nat) (s : string) {struct fuel} : option (json * string) :=
  match fuel with
  | O => None
  | S n =>
      match s with
      | EmptyString => None
      | String c r =>
          if Ascii.eqb c quote then
            match scan_string r with
            | Some (str, rest) => Some (JStr str, rest)
            | None => None
            end
          else if Ascii.eqb c "{"%char then
            match skip_ws r with
            | String d r' =>
                if Ascii.eqb d "}"%char then Some (JObj [], r')
                else match parse_members n (skip_ws r) [] with
                     | Some (kvs, rest) => Some (JObj kvs, rest)
                     | None => None
                     end
            | EmptyString => None
            end
          else if Ascii.eqb c "["%char then
            match skip_ws r with
            | String d r' =>
                if Ascii.eqb d "]"%char then Some (JArr [], r')
                else match parse_elements n (skip_ws r) [] with
                     | Some (items, rest) => Some (JArr items, rest)
                     | None => None
                     end
            | EmptyString => None
            end
          else match strip_prefix "null" s with
          | Some rest => Some (JNull, rest)
          | None =>
          match strip_prefix "true" s with
          | Some rest => Some (JBool true, rest)
          | None =>
          match strip_prefix "false" s with
          | Some rest => Some (JBool false, rest)
          | None =>
          match strip_prefix "NaN" s with
          | Some rest => Some (JFloat "NaN", rest)
          | None =>
          match strip_prefix "Infinity" s with
          | Some rest => Some (JFloat "Infinity", rest)
          | None =>
          match strip_prefix "-Infinity" s with
          | Some rest => Some (JFloat "-Infinity", rest)
          | None => parse_number s
          end end end end end end
      end
  end
(* at a property name: ["key" : value] then [,] or [}] *)
with parse_members (fuel : nat) (s : string) (acc : list (string * json)) {struct fuel}
    : option (list (string * json) * string) :=
  match fuel with
  | O => None
  | S n =>
      match s with
      | String c r =>
          if Ascii.eqb c quote then
            match scan_string r with
            | None => None
            | Some (key, r1) =>
                match skip_ws r1 with
                | String colon r2 =>
                    if Ascii.eqb colon ":"%char then
                      match parse_value n (skip_ws r2) with
                      | None => None
                      | Some (v, r3) =>
                          match skip_ws r3 with
                          | String d r4 =>
                              if Ascii.eqb d "}"%char then Some (rev ((key, v) :: acc), r4)
                              else if Ascii.eqb d ","%char then
                                parse_members n (skip_ws r4) ((key, v) :: acc)
                              else None
                          | EmptyString => None
                          end
                      end
                    else None
                | EmptyString => None
                end
            end
          else None
      | EmptyString => None
      end
  end
(* at an element: value then [,] or [] ] *)
with parse_elements (fuel : nat) (s : string) (acc : list json) {struct fuel}
    : option (list json * string) :=
  match fuel with
  | O => None
  | S n =>
      match parse_value n s with
      | None => None
      | Some (v, r3) =>
          match skip_ws r3 with
          | String d r4 =>
              if Ascii.eqb d "]"%char then Some (rev (v :: acc), r4)
              else if Ascii.eqb d ","%char then parse_elements n (skip_ws r4) (v :: acc)
              else None
          | EmptyString => None
          end
      end
  end.

(** [json.loads(s)]: [None] when it raises ([JSONDecodeError], "Extra
    data" included). *)
Definition json_loads (s : string) : option json :=
  match parse_value (S (String.length s)) (skip_ws s) with
  | Some (v, rest) => if String.eqb (skip_ws rest) "" then Some v else None
  | None => None
  end.

(** [dict(pairs)]: the last value of a repeated key wins. *)
Definition obj_get (k : string) (kvs : list (string * json)) : option json :=
  fold_left (fun acc '(k', v) => if String.eqb k k' then Some v else acc) kvs None.

(** *** [json.dumps(obj, indent=2)] with [ensure_ascii=True] *)

Fixpoint dec_digits (fuel : nat) (n : N) (acc : string) : string :=
  match fuel with
  | O => acc
  | S f =>
      let acc' := String (ascii_of_N (48 + N.modulo n 10)) acc in
      if (n <? 10)%N then acc' else dec_digits f (N.div n 10) acc'
  end.

(** [repr(int)] *)
Definition int_repr (z : Z) : string :=
  let ds := dec_digits (S (N.size_nat (Z.abs_N z))) (Z.abs_N z) "" in
  if (z <? 0)%Z then "-" ++ ds else ds.

Definition hex_digit (n : nat) : ascii :=
  if (n <? 10)%nat then ascii_of_nat (48 + n) else ascii_of_nat (87 + n).

(** A byte outside [' '..'~'] as [\u00XX]. *)
Definition u_escape (c : ascii) : string :=
  let n := nat_of_ascii c in
  String backslash ("u00" ++ String (hex_digit (n / 16)) (String (hex_digit (n mod 16)) "")).

(** [py_encode_basestring_ascii] on ASCII text.  A byte of 128 or above is
    escaped on its own as [\u00XX], where CPython escapes the code point of
    the UTF-8 sequence it belongs to: the two agree on ASCII strings only,
    the strings of [plain] values. *)
Fixpoint escape_ascii (s : string) : string :=
  match s with
  | EmptyString => EmptyString
  | String c r =>
      let n := nat_of_ascii c in
      let e :=
        if Ascii.eqb c quote then String backslash q
        else if Ascii.eqb c backslash then String backslash (String backslash "")
        else if (n =? 8)%nat then String backslash "b"
        else if (n =? 12)%nat then String backslash "f"
        else if (n =? 10)%nat then String backslash "n"
        else if (n =? 13)%nat then String backslash "r"
        else if (n =? 9)%nat then String backslash "t"
        else if ((32 <=? n) && (n <=? 126))%nat then String c ""
        else u_escape c in
      e ++ escape_ascii r
  end.

Definition encode_str (s : string) : string := q ++ escape_ascii s ++ q.

Fixpoint spaces (n : nat) : string :=
  match n with O => "" | S m => String " "%char (spaces m) end.

(** [newline_indent] at a nesting level. *)
Definition indent_at (level : nat) : string := nl ++ spaces (2 * level).

Fixpoint dumps_at (level : nat) (v : json) : string :=
  match v with
  | JNull => "null"
  | JBool true => "true"
  | JBool false => "false"
  | JInt z => int_repr z
  | JFloat lit => lit
  | JStr s => encode_str s
  | JArr [] => "[]"
  | JArr items =>
      "[" ++ indent_at (S level)
        ++ (fix go (l : list json) : string :=
              match l with
              | [] => ""
              | [x] => dumps_at (S level) x
              | x :: xs => dumps_at (S level) x ++ "," ++ indent_at (S level) ++ go xs
              end) items
        ++ indent_at level ++ "]"
  | JObj [] => "{}"
  | JObj kvs =>
      "{" ++ indent_at (S level)
        ++ (fix go (l : list (string * json)) : string :=
              match l with
              | [] => ""
              | [(k, x)] => encode_str k ++ ": " ++ dumps_at (S level) x
              | (k, x) :: xs =>
                  encode_str k ++ ": " ++ dumps_at (S level) x ++ ","
                    ++ indent_at (S level) ++ go xs
              end) kvs
        ++ indent_at level ++ "}"
  end.

Definition json_dumps_indent2 (v : json) : string := dumps_at 0 v.

(** A cache as the JSON value it is serialised to. *)
Definition cache_to_json (c : Cache) : json :=
  JObj (map (fun '(k, ps) => (k, JArr (map JInt ps))) c).

(** ** [get_cached_reviewed_lines] and [post_metadata_comment] *)

Definition META_MARKER : string := "<!-- dhp-pr-review-bot-meta".

(** [body.split('\n', 1)[1]]; [None] for the [IndexError] of a body
    without a newline. *)
Fixpoint after_first_newline (s : string) : option string :=
  match s with
  | EmptyString => None
  | String c r => if Ascii.eqb c newline then Some r else after_first_newline r
  end.

(** The [try] block: [meta = json.loads(...)]; [return meta.get("reviewed", {})].
    [None] when it raises: no newline, invalid JSON, or a JSON value that is
    not an object ([.get] raises [AttributeError]). *)
Definition try_meta (body : string) : option json :=
  match after_first_newline body with
  | None => None
  | Some payload =>
      match json_loads payload with
      | Some (JObj kvs) =>
          Some (match obj_get "reviewed" kvs with Some v => v | None => JObj [] end)
      | _ => None
      end
  end.

(** [get_cached_reviewed_lines(pr)] over [pr.get_issue_comments()] bodies. *)
Fixpoint get_cached_reviewed_lines (bodies : list string) : json :=
  match bodies with
  | [] => JObj []
  | body :: rest =>
      if startswith body META_MARKER then
        match try_meta body with
        | Some v => v
        | None => get_cached_reviewed_lines rest
        end
      else get_cached_reviewed_lines rest
  end.

(** The body built by [post_metadata_comment(pr, reviewed_lines_dict)]. *)
Definition metadata_body (reviewed_lines : json) : string :=
  META_MARKER ++ nl ++ json_dumps_indent2 (JObj [("reviewed", reviewed_lines)])
    ++ nl ++ "-->".

(** ** The driver script [pr_review.py] *)

Record PR := mkPR {
  pr_review_requests : list string;   (* logins of [pr.get_review_requests()[0]] *)
  pr_issue_comments : list string;    (* bodies of [pr.get_issue_comments()] *)
  pr_files : list File                (* [pr.get_files()] *)
}.

(** Observable effects of a run, in order. *)
Inductive Effect : Type :=
| EPrint (msg : string)
| ECreateReview (body event : string) (comments : list Comment)
| ECreateIssueComment (body : string).

(** [post_metadata_comment(pr, reviewed_lines_dict)]: one issue comment. *)
Definition post_metadata_comment (reviewed_lines : json) : Effect :=
  ECreateIssueComment (metadata_body reviewed_lines).

Definition BOT_USER : string := "dhp-pr-review-bot".

(** The loaded cache as a [dict[str, list[int]]] (keys in first-insertion
    order, last value wins); other shapes are outside this model. *)
Fixpoint ints_of (l : list json) : option (list Z) :=
  match l with
  | [] => Some []
  | JInt z :: r => match ints_of r with Some zs => Some (z :: zs) | None => None end
  | _ => None
  end.

Definition cache_of_json (v : json) : option Cache :=
  match v with
  | JObj kvs =>
      fold_left (fun acc '(k, x) =>
                   match acc, x with
                   | Some c, JArr items =>
                       match ints_of items with
                       | Some zs => Some (dict_set k zs c)
                       | None => None
                       end
                   | _, _ => None
                   end) kvs (Some [])
  | _ => None
  end.

Definition review_body : string := "🤖 dhp-pr-review-bot reviewed this PR.".

(** The script after [pr = repo.get_pull(PR_NUMBER)]; [None] when the loaded
    cache has a shape outside [cache_of_json]. *)
Definition run_pr_review (set_list : list Z -> list Z) (pr : PR) : option (list Effect) :=
  if negb (existsb (String.eqb BOT_USER) (pr_review_requests pr)) then
    Some [EPrint "Bot not requested as reviewer. Skipping."]
  else
    let reviewed_cache := get_cached_reviewed_lines (pr_issue_comments pr) in
    match cache_of_json reviewed_cache with
    | None => None
    | Some cache =>
        let '(comments, new_cache) :=
          generate_review_comments set_list (pr_files pr) cache in
        match comments with
        | _ :: _ =>
            Some [ECreateReview review_body "COMMENT" comments;
                  post_metadata_comment (cache_to_json new_cache)]
        | [] => Some [EPrint "No new comments to post."]
        end
    end.

(** ** The spec's notions for sentinel comments *)


(** The spec's failure cases for one sentinel comment: no payload, a
    malformed JSON payload, or parsed JSON without a "reviewed" field. *)
Definition sentinel_without_cache (body : string) : Prop :=
  match after_first_newline body with
  | None => True
  | Some payload =>
      match json_loads payload with
      | None => True
      | Some (JObj kvs) => obj_get "reviewed" kvs = None
      | Some _ => True
      end
  end.

(** Effects that change the pull request. *)
Definition is_write (e : Effect) : bool :=
  match e with
  | EPrint _ => false
  | ECreateReview _ _ _ | ECreateIssueComment _ => true
  end.

(** ** Auxiliary notions of the proofs *)

(** A concrete order satisfying [set_list_spec]: first occurrence. *)
Definition first_seen_order : list Z -> list Z := nodup Z.eq_dec.

(** [rest] follows a consumed prefix of [s] whose last character is not
    ['>']. *)
Definition closes (s rest : string) : Prop :=
  exists pre c, s = pre ++ String c rest /\ c <> ">"%char.

Inductive suffix_of : string -> string -> Prop :=
| suffix_refl t : suffix_of t t
| suffix_cons c t s : suffix_of t s -> suffix_of t (String c s).

Fixpoint last_char (s : string) : option ascii :=
  match s with
  | EmptyString => None
  | String c EmptyString => Some c
  | String _ r => last_char r
  end.

Ltac suffix_solve := first [apply suffix_refl | apply suffix_cons; suffix_solve].


(** ** Serialised JSON: the values it reads back *)

(** Every byte is below 128. *)
Definition is_ascii_str (s : string) : bool :=
  forallb (fun c => (nat_of_ascii c <? 128)%nat) (list_ascii_of_string s).

(** No float, and only ASCII in strings and keys. *)
Fixpoint plain (v : json) : bool :=
  match v with
  | JNull | JBool _ | JInt _ => true
  | JFloat _ => false
  | JStr s => is_ascii_str s
  | JArr items => forallb plain items
  | JObj kvs => forallb (fun kv => is_ascii_str (fst kv) && plain (snd kv)) kvs
  end.

(** A Python dict has each key once. *)
Fixpoint distinct_strings (l : list string) : bool :=
  match l with
  | [] => true
  | k :: r => negb (existsb (String.eqb k) r) && distinct_strings r
  end.

Fixpoint keys_distinct (v : json) : bool :=
  match v with
  | JArr items => forallb keys_distinct items
  | JObj kvs => distinct_strings (map fst kvs) && forallb (fun kv => keys_distinct (snd kv)) kvs
  | _ => true
  end.

(** Nesting of arrays and objects. *)
Fixpoint json_depth (v : json) : nat :=
  match v with
  | JArr items => S (list_max (map json_depth items))
  | JObj kvs => S (list_max (map (fun kv => json_depth (snd kv)) kvs))
  | _ => O
  end.

(** [sys.get_int_max_str_digits()] by default: [int] to or from a decimal
    string raises [ValueError] beyond this many digits. *)
Definition INT_MAX_STR_DIGITS : Z := 4300.

Fixpoint ints_fit (v : json) : bool :=
  match v with
  | JInt z => (Z.abs z <? 10 ^ INT_MAX_STR_DIGITS)%Z
  | JArr items => forallb ints_fit items
  | JObj kvs => forallb (fun kv => ints_fit (snd kv)) kvs
  | _ => true
  end.

(** Values [json.loads] and [json.dumps(v, indent=2)] handle without
    [ValueError] or [RecursionError]: every integer has at most 4300
    digits, and the nesting is at most 100.  The C decoder
    ([scan_once_unicode]) and the indent encoder ([_iterencode_list],
    [_iterencode_dict]) take one recursion level per nested array or
    object, and the recursion limit is 1000 by default, so a nesting of 100
    stays clear of it where these scripts call [json]. *)
Definition in_limits (v : json) : bool :=
  ints_fit v && (json_depth v <=? 100)%nat.

(** Number of nodes, bounding the parser's fuel. *)
Fixpoint jsize (v : json) : nat :=
  match v with
  | JArr items => S (list_sum (map (fun x => S (jsize x)) items))
  | JObj kvs => S (list_sum (map (fun kv => S (jsize (snd kv))) kvs))
  | _ => 1
  end.

(** What may follow a number in a serialised value. *)
Definition stops (r : string) : bool :=
  match r with
  | EmptyString => true
  | String c _ => Ascii.eqb c ","%char || Ascii.eqb c newline
  end.

(** The separator-joined items and members of [dumps_at]'s inner loops. *)
Fixpoint join_items (d : json -> string) (sep : string) (l : list json) : string :=
  match l with
  | [] => ""
  | [x] => d x
  | x :: xs => d x ++ "," ++ sep ++ join_items d sep xs
  end.

Fixpoint join_members (d : json -> string) (sep : string) (l : list (string * json)) : string :=
  match l with
  | [] => ""
  | [(k, x)] => encode_str k ++ ": " ++ d x
  | (k, x) :: xs => encode_str k ++ ": " ++ d x ++ "," ++ sep ++ join_members d sep xs
  end.

Definition all_digits (s : string) : bool := forallb is_digit (list_ascii_of_string s).


(** First characters of a serialised plain value. *)
Definition starts_value (s : string) : Prop :=
  exists d w, s = String d w /\ is_ws d = false /\ d <> "]"%char /\ d <> "}"%char.

(** ** [GenAIUtils.get_final_review] ([genai_utils.py]) *)

(** A continuation byte [0b10xxxxxx] of UTF-8. *)
Definition is_cont (c : ascii) : bool :=
  (128 <=? nat_of_ascii c)%nat && (nat_of_ascii c <? 192)%nat.

(** The code points of a UTF-8 text, each as its bytes: a byte with the
    continuation bytes that follow it. *)
Fixpoint code_points (s : string) : list string :=
  match s with
  | EmptyString => []
  | String c r =>
      match code_points r with
      | String d g :: gs =>
          if is_cont d then String c (String d g) :: gs
          else String c EmptyString :: String d g :: gs
      | gs => String c EmptyString :: gs
      end
  end.

(** The code points for which [str.isspace] holds. *)
Definition py_space_code_points : list Z :=
  [9; 10; 11; 12; 13; 28; 29; 30; 31; 32; 133; 160; 5760;
   8192; 8193; 8194; 8195; 8196; 8197; 8198; 8199; 8200; 8201; 8202;
   8232; 8233; 8239; 8287; 12288]%Z.

Definition is_space_cp (g : string) : bool :=
  existsb (fun u => String.eqb g (utf8 u)) py_space_code_points.

Fixpoint drop_space (l : list string) : list string :=
  match l with
  | [] => []
  | g :: gs => if is_space_cp g then drop_space gs else l
  end.

(** [s.strip()] *)
Definition py_strip (s : string) : string :=
  String.concat "" (rev (drop_space (rev (drop_space (code_points s))))).

(** [s[:n]] *)
Definition py_take (n : nat) (s : string) : string :=
  String.concat "" (firstn n (code_points s)).

(** The first and the last offset at or after [i] where [pat] occurs. *)
Fixpoint first_index (pat s : string) (i : nat) : option nat :=
  match s with
  | EmptyString => if String.prefix pat s then Some i else None
  | String _ r => if String.prefix pat s then Some i else first_index pat r (S i)
  end.

Fixpoint last_index (pat s : string) (i : nat) : option nat :=
  match s with
  | EmptyString => if String.prefix pat s then Some i else None
  | String _ r =>
      match last_index pat r (S i) with
      | Some j => Some j
      | None => if String.prefix pat s then Some i else None
      end
  end.

(** [s.find(pat)] and [s.rfind(pat)]: [-1] when [pat] does not occur.
    Offsets count bytes; for an ASCII [pat] in UTF-8 text they point at
    the same places as Python's code-point indices, and so do the slices
    taken at them. *)
Definition py_find (s pat : string) : Z :=
  match first_index pat s 0 with Some n => Z.of_nat n | None => (-1)%Z end.

Definition py_rfind (s pat : string) : Z :=
  match last_index pat s 0 with Some n => Z.of_nat n | None => (-1)%Z end.

(** [pat in s] *)
Definition contains (s pat : string) : bool :=
  match first_index pat s 0 with Some _ => true | None => false end.

(** [s[a:b]] for [0 <= a] and [0 <= b]. *)
Definition py_slice (s : string) (a b : Z) : string :=
  substring (Z.to_nat a) (Z.to_nat b - Z.to_nat a) s.

Definition json_fence : string := "```json".
Definition fence : string := "```".

(** The text handed to [json.loads] in [get_final_review]. *)
Definition extract_json_string (response_text : string) : string :=
  let json_start := py_find response_text json_fence in
  let json_end := py_rfind response_text fence in
  if negb (json_start =? -1)%Z && negb (json_end =? -1)%Z && (json_start <? json_end)%Z
  then py_strip (py_slice response_text (json_start + Z.of_nat (String.length json_fence)) json_end)
  else py_strip response_text.

(** The dict returned on [json.JSONDecodeError] [e]. *)
Definition parse_error_review (e response_text : string) : json :=
  JObj [("pr_summary", JStr "Error: Could not parse AI review. Please check logs.");
        ("improvement_suggestions", JArr []);
        ("code_issues", JArr []);
        ("security_vulnerabilities", JArr []);
        ("overall_review_comments",
          JStr ("Failed to parse AI response: " ++ e ++ ". Raw response: "
                ++ py_take 500 response_text ++ "..."))].

(** The dict returned on any other exception [e]. *)
Definition unexpected_error_review (e : string) : json :=
  JObj [("pr_summary", JStr "Error: An unexpected error occurred during AI review.");
        ("improvement_suggestions", JArr []);
        ("code_issues", JArr []);
        ("security_vulnerabilities", JArr []);
        ("overall_review_comments", JStr ("Unexpected error: " ++ e))].

Definition has_backtick (s : string) : bool :=
  existsb (fun c => Ascii.eqb c "`"%char) (list_ascii_of_string s).

Section FinalReview.

(** [str(e)] of the [JSONDecodeError] raised by [json.loads(t)]. *)
Variable decode_error_text : string -> string.
(** Whether [json.loads(t)] raises an exception other than
    [JSONDecodeError], and [str(e)] of it: [RecursionError] for nesting
    deeper than the interpreter's recursion limit, or [ValueError] for an
    integer literal longer than [sys.get_int_max_str_digits()] (4300 by
    default).  [json_loads] models neither limit. *)
Variable loads_error : string -> bool.
Variable loads_error_text : string -> string.

(** [GenAIUtils.get_final_review] after [response_text =
    self._invoke_llm(...)]; the printed log lines are not modelled. *)
Definition get_final_review (response_text : string) : json :=
  let json_string := extract_json_string response_text in
  if loads_error json_string then
    unexpected_error_review (loads_error_text json_string)
  else
    match json_loads json_string with
    | Some review_json => review_json
    | None => parse_error_review (decode_error_text json_string) response_text
    end.

End FinalReview.

(** [RecursionError] comes from entering nested arrays or objects and the
    digit-limit [ValueError] from an integer literal, so when either is
    raised the first character [json.loads] reads is ['['], ['{'], ['-'] or
    a digit. *)
Definition loads_error_nested (loads_error : string -> bool) : Prop :=
  forall t, loads_error t = true ->
  exists c r, skip_ws t = String c r /\
    (c = "["%char \/ c = "{"%char \/ c = "-"%char \/ is_digit c = true).


(** ** [pr_review_bot.main] *)

(** What [main] gets from the environment and from the services it calls
    ([github_utils] is not part of the sources; its results are inputs). *)
Record BotWorld := mkBotWorld {
  bw_getenv : string -> option string;  (* [os.getenv] *)
  bw_github_error : option string;      (* [GitHubUtils(...)] or [get_pr_details()] raises *)
  bw_bot_requested : bool;              (* [is_bot_requested_reviewer(BOT_USER)] *)
  bw_genai_error : option string;       (* [GenAIUtils(...)] raises *)
  bw_pr_files : list File;              (* [get_pr_files()]; [None] behaves as [[]] *)
  bw_llm_reply : nat -> option string;  (* reply to the n-th LLM call; [None]: it raises *)
  bw_post_fails : bool                  (* [post_pr_review_comments] raises *)
}.

(** Calls of [main] to the LLM and to GitHub, in order. *)
Inductive BotCall : Type :=
| CallChunk (file_name file_content_chunk : string)  (* [process_pr_chunk] *)
| CallFinal                                          (* [get_final_review]'s LLM call *)
| CallPost (review : json).                          (* [post_pr_review_comments] *)

(** How [main] ends: [exit(code)] or returning ([BotExit 0]), or an
    uncaught exception. *)
Inductive BotEnd : Type :=
| BotExit (code : Z)
| BotRaise.

(** Truthiness of an optional environment string. *)
Definition truthy_env (o : option string) : bool :=
  match o with Some s => negb (String.eqb s "") | None => false end.

Section Main.

(** [int(s)] on a string: [None] for its [ValueError]. *)
Variable py_int : string -> option Z.
(** [bool(float(lit))] for a float literal read by [json.loads]. *)
Variable float_truthy : string -> bool.
Variable decode_error_text : string -> string.
Variable loads_error : string -> bool.
Variable loads_error_text : string -> string.

(** [bool(v)] *)
Definition truthy (v : json) : bool :=
  match v with
  | JNull => false
  | JBool b => b
  | JInt z => negb (z =? 0)%Z
  | JFloat lit => float_truthy lit
  | JStr s => negb (String.eqb s "")
  | JArr items => match items with [] => false | _ => true end
  | JObj kvs => match kvs with [] => false | _ => true end
  end.

(** The loop [for file in pr_files]: the calls made and the index of the
    next LLM call, or [None] when an LLM call raised. *)
Fixpoint send_chunks (llm_reply : nat -> option string) (n : nat) (files : list File)
    : list BotCall * option nat :=
  match files with
  | [] => ([], Some n)
  | file :: rest =>
      match patch file with
      | None => send_chunks llm_reply n rest
      | Some p =>
          if String.eqb p "" then send_chunks llm_reply n rest
          else
            let c := CallChunk (filename file) p in
            match llm_reply n with
            | None => ([c], None)
            | Some _ => let '(cs, r) := send_chunks llm_reply (S n) rest in (c :: cs, r)
            end
      end
  end.

(** [pr_review_bot.main()] *)
Definition bot_main (w : BotWorld) : list BotCall * BotEnd :=
  let REPO_NAME := bw_getenv w "REPO" in
  match bw_getenv w "PR_NUMBER" with
  | None => ([], BotRaise)
  | Some pr_number_text =>
  match py_int pr_number_text with
  | None => ([], BotRaise)
  | Some PR_NUMBER =>
  let GITHUB_TOKEN := bw_getenv w "GITHUB_TOKEN" in
  let AWS_BEDROCK_KB_ID := bw_getenv w "AWS_BEDROCK_KB_ID" in
  if negb (truthy_env REPO_NAME && truthy_env GITHUB_TOKEN && truthy_env AWS_BEDROCK_KB_ID)
  then ([], BotExit 1)
  else if (PR_NUMBER <=? 0)%Z then ([], BotExit 1)
  else match bw_github_error w with
  | Some _ => ([], BotExit 1)
  | None =>
  if negb (bw_bot_requested w) then ([], BotExit 0)
  else match bw_genai_error w with
  | Some _ => ([], BotExit 1)
  | None =>
  match bw_pr_files w with
  | [] => ([], BotExit 0)
  | pr_files =>
      let '(chunks, next) := send_chunks (bw_llm_reply w) 0 pr_files in
      match next with
      | None => (chunks, BotRaise)
      | Some n =>
          match bw_llm_reply w n with
          | None => (app chunks [CallFinal], BotRaise)
          | Some response_text =>
              let ai_review_json :=
                get_final_review decode_error_text loads_error loads_error_text
                  response_text in
              if truthy ai_review_json then
                (app chunks [CallFinal; CallPost ai_review_json],
                 if bw_post_fails w then BotRaise else BotExit 0)
              else (app chunks [CallFinal], BotExit 0)
          end
      end
  end end end end end.

End Main.

(** The files [main] sends to the LLM: every record with a non-empty
    patch. *)
Definition chunk_calls (files : list File) : list BotCall :=
  flat_map (fun f => match patch f with
                     | Some p => if String.eqb p "" then [] else [CallChunk (filename f) p]
                     | None => []
                     end) files.


(** Inputs of a run for the examples: every variable set, PR number "7",
    three files (modified, removed, and without patch), and [reply] to every
    LLM call. *)
Definition sample_bot_world (reply : string) : BotWorld :=
  mkBotWorld (fun k => if String.eqb k "PR_NUMBER" then Some "7" else Some "set")
    None true None
    [mkFile "a.py" (Some "+x") "modified"; mkFile "b.py" (Some "-y") "removed";
     mkFile "c.py" None "renamed"]
    (fun _ => Some reply) false.

(* ================================================================== *)
(** * Proofs *)

(** ** The worked example, evaluated *)

Example sample_split : length (split_on newline sample_patch) = 5%nat.
Proof. reflexivity. Qed.

Example sample_added : added_positions sample_patch = [3; 4]%Z.
Proof. reflexivity. Qed.

Example sample_run :
  generate_review_comments (fun l => l) [mkFile "f.py" (Some sample_patch) "modified"]
    [("f.py", [3%Z])]
  = ([mkComment "f.py" 4 suggestion_body], [("f.py", [3; 4]%Z)]).
Proof. reflexivity. Qed.

(** ** Dict lemmas *)

Lemma dict_get_set_eq {V} (k : string) (v : V) d :
  dict_get k (dict_set k v d) = Some v.
Proof.
  induction d as [|[k' v'] d IH]; simpl.
  - now rewrite String.eqb_refl.
  - destruct (String.eqb k k') eqn:E; simpl.
    + apply String.eqb_eq in E; subst. now rewrite String.eqb_refl.
    + now rewrite E.
Qed.

Lemma dict_get_set_neq {V} (k k' : string) (v : V) d :
  k <> k' -> dict_get k' (dict_set k v d) = dict_get k' d.
Proof.
  intros Hne. induction d as [|[k0 v0] d IH]; simpl.
  - destruct (String.eqb k' k) eqn:E; [|reflexivity].
    apply String.eqb_eq in E; congruence.
  - destruct (String.eqb k k0) eqn:E; simpl.
    + apply String.eqb_eq in E; subst.
      destruct (String.eqb k' k0) eqn:E'; [|reflexivity].
      apply String.eqb_eq in E'; congruence.
    + now rewrite IH.
Qed.

Lemma dict_set_set {V} (k : string) (v w : V) d :
  dict_set k v (dict_set k w d) = dict_set k v d.
Proof.
  induction d as [|[k0 v0] d IH]; simpl.
  - now rewrite String.eqb_refl.
  - destruct (String.eqb k k0) eqn:E; simpl; rewrite E; [reflexivity|].
    now rewrite IH.
Qed.

Lemma dict_set_same {V} (k : string) (v : V) d :
  dict_get k d = Some v -> dict_set k v d = d.
Proof.
  induction d as [|[k0 v0] d IH]; simpl; [discriminate|].
  destruct (String.eqb k k0) eqn:E.
  - now intros [= ->].
  - intros H. now rewrite IH.
Qed.

(** ** The loops in closed form *)

Lemma review_lines_eq fname rv lines : forall pos cs nc e,
  dict_get fname nc = Some e ->
  review_lines fname rv pos lines cs nc =
  (app cs (mk_comments fname
             (filter (fun x => negb (mem x rv)) (added_from pos lines))),
   dict_set fname (app e (filter (fun x => negb (mem x rv)) (added_from pos lines))) nc).
Proof.
  induction lines as [|line rest IH]; intros pos cs nc e He; simpl.
  - rewrite !app_nil_r. now rewrite dict_set_same.
  - destruct (is_added_line line); simpl.
    + destruct (negb (mem (pos + 1) rv)) eqn:Hm; simpl.
      * rewrite He. rewrite (IH _ _ _ (app e [(pos + 1)%Z])) by apply dict_get_set_eq.
        rewrite dict_set_set, <- !app_assoc. reflexivity.
      * now apply IH.
    + now apply IH.
Qed.

Lemma review_files_app sl cache l1 l2 cs nc :
  review_files sl cache (app l1 l2) cs nc =
  let '(cs', nc') := review_files sl cache l1 cs nc in review_files sl cache l2 cs' nc'.
Proof.
  revert cs nc. induction l1 as [|f l1 IH]; intros cs nc; simpl; [reflexivity|].
  destruct (patch f) as [p|]; [|apply IH].
  destruct (String.eqb p "" || String.eqb (status f) "removed"); [apply IH|].
  rewrite review_lines_eq with (e := sl match dict_get (filename f) cache with
                                       | Some l => l | None => [] end)
    by apply dict_get_set_eq.
  apply IH.
Qed.

(** One non-skipped record, in closed form. *)
Lemma review_files_cons_kept sl cache f rest p cs nc :
  patch f = Some p -> skip_file f = false ->
  review_files sl cache (f :: rest) cs nc =
  review_files sl cache rest (app cs (file_comments cache f))
    (dict_set (filename f) (file_entry sl cache f) nc).
Proof.
  intros Hp Hs. unfold skip_file in Hs. rewrite Hp in Hs. simpl. rewrite Hp, Hs.
  rewrite review_lines_eq with (e := sl (cached_positions cache (filename f)))
    by apply dict_get_set_eq.
  unfold file_comments, file_entry, skip_file. rewrite Hp, Hs.
  rewrite dict_set_set. reflexivity.
Qed.

Lemma review_files_cons_skipped sl cache f rest cs nc :
  skip_file f = true ->
  review_files sl cache (f :: rest) cs nc = review_files sl cache rest cs nc.
Proof.
  intros Hs. unfold skip_file in Hs. simpl.
  destruct (patch f) as [p|]; [now rewrite Hs | reflexivity].
Qed.

Lemma file_comments_skipped cache f :
  skip_file f = true -> file_comments cache f = [].
Proof.
  unfold file_comments. destruct (patch f); [|reflexivity]. now intros ->.
Qed.

Lemma review_files_comments sl cache files : forall cs nc,
  fst (review_files sl cache files cs nc) = app cs (flat_map (file_comments cache) files).
Proof.
  induction files as [|f rest IH]; intros cs nc.
  - simpl. now rewrite app_nil_r.
  - destruct (skip_file f) eqn:Hs.
    + rewrite review_files_cons_skipped by exact Hs.
      simpl. now rewrite file_comments_skipped, IH.
    + destruct (patch f) as [p|] eqn:Hp.
      * rewrite (review_files_cons_kept _ _ _ _ p) by assumption.
        rewrite IH. simpl. now rewrite app_assoc.
      * unfold skip_file in Hs. rewrite Hp in Hs. discriminate.
Qed.

Lemma review_files_entry sl cache files k : forall cs nc,
  dict_get k (snd (review_files sl cache files cs nc)) =
  match last_record k files with
  | Some g => Some (file_entry sl cache g)
  | None => dict_get k nc
  end.
Proof.
  induction files as [|f rest IH]; intros cs nc; [reflexivity|].
  simpl last_record.
  destruct (skip_file f) eqn:Hs.
  - rewrite review_files_cons_skipped by exact Hs. rewrite IH.
    destruct (last_record k rest); [reflexivity|].
    now rewrite andb_false_r.
  - destruct (patch f) as [p|] eqn:Hp;
      [|unfold skip_file in Hs; rewrite Hp in Hs; discriminate].
    rewrite (review_files_cons_kept _ _ _ _ p) by assumption. rewrite IH.
    destruct (last_record k rest); [reflexivity|]. simpl.
    destruct (String.eqb (filename f) k) eqn:E; simpl.
    + apply String.eqb_eq in E. subst. apply dict_get_set_eq.
    + apply dict_get_set_neq. intros H. subst. now rewrite String.eqb_refl in E.
Qed.

(** ** Positions *)

Lemma added_from_seq lines : forall k,
  added_from (Z.of_nat k) lines =
  map Z.of_nat
    (filter (fun i => is_added_line (nth (i - S k) lines "")) (seq (S k) (length lines))).
Proof.
  induction lines as [|line rest IH]; intros k; [reflexivity|].
  cbn [added_from length]. rewrite <- cons_seq. cbn [filter]. rewrite Nat.sub_diag.
  replace (Z.of_nat k + 1)%Z with (Z.of_nat (S k)) by lia.
  rewrite (IH (S k)).
  rewrite (filter_ext_in (fun i => is_added_line (nth (i - S k) (line :: rest) ""))
             (fun i => is_added_line (nth (i - S (S k)) rest ""))).
  - simpl nth. destruct (is_added_line line); reflexivity.
  - intros i Hi. apply in_seq in Hi.
    replace (i - S k) with (S (i - S (S k))) by lia. reflexivity.
Qed.

Lemma added_from_positions p :
  added_from 0 (split_on newline p) = added_positions p.
Proof.
  unfold added_positions. apply (added_from_seq _ 0).
Qed.

Lemma filter_negb_mem_nil xs :
  filter (fun x => negb (mem x [])) xs = xs.
Proof.
  induction xs as [|x xs IH]; [reflexivity|].
  change (x :: filter (fun x => negb (mem x [])) xs = x :: xs). now rewrite IH.
Qed.

(** [mem] is list membership. *)
Lemma mem_In x xs : mem x xs = true <-> In x xs.
Proof.
  unfold mem. rewrite existsb_exists. split.
  - intros (y & Hy & E). apply Z.eqb_eq in E. now subst.
  - intros H. exists x. split; [exact H | apply Z.eqb_refl].
Qed.

Lemma filter_negb_mem_covered xs rv :
  (forall x, In x xs -> In x rv) -> filter (fun x => negb (mem x rv)) xs = [].
Proof.
  induction xs as [|x xs IH]; intros H; simpl; [reflexivity|].
  assert (Hx : mem x rv = true) by (apply mem_In, H; now left).
  rewrite Hx. simpl. apply IH. intros y Hy. apply H. now right.
Qed.

(** [C1]: with an empty cache, the comments are, file by file (records with
    no patch, an empty patch or status "removed" being skipped), exactly one
    per line starting with '+' but not "++", positioned at that line's
    1-based index in the full '\n'-split line sequence of the patch. *)
Theorem generate_empty_cache_comments (set_list : list Z -> list Z) (files : list File) :
  fst (generate_review_comments set_list files []) =
  flat_map (fun f => match patch f with
                     | Some p => if skip_file f then []
                                 else mk_comments (filename f) (added_positions p)
                     | None => []
                     end) files.
Proof.
  unfold generate_review_comments. rewrite review_files_comments. simpl.
  apply flat_map_ext. intros f. unfold file_comments, fresh_positions.
  destruct (patch f) as [p|]; [|reflexivity].
  destruct (skip_file f); [reflexivity|].
  unfold cached_positions. cbn [dict_get]. now rewrite filter_negb_mem_nil, added_from_positions.
Qed.

(** ** Last surviving record *)

Lemma last_record_none k files :
  (forall g, In g files -> filename g <> k) -> last_record k files = None.
Proof.
  induction files as [|f rest IH]; intros H; simpl; [reflexivity|].
  rewrite IH by (intros g Hg; apply H; now right).
  destruct (String.eqb (filename f) k) eqn:E; [|reflexivity].
  apply String.eqb_eq in E. exfalso. apply (H f); [now left | exact E].
Qed.

Lemma last_record_some k files g :
  last_record k files = Some g ->
  In g files /\ filename g = k /\ skip_file g = false.
Proof.
  induction files as [|f rest IH]; simpl; [discriminate|].
  destruct (last_record k rest) as [g'|].
  - intros [= <-]. destruct IH as (H1 & H2 & H3); [reflexivity|]. auto.
  - destruct (String.eqb (filename f) k) eqn:E; simpl; [|discriminate].
    destruct (skip_file f) eqn:Hs; simpl; [discriminate|].
    intros [= <-]. apply String.eqb_eq in E. auto.
Qed.

Lemma last_record_exists k files f :
  In f files -> filename f = k -> skip_file f = false ->
  exists g, last_record k files = Some g.
Proof.
  induction files as [|f0 rest IH]; simpl; [contradiction|].
  intros Hin Hk Hs. destruct (last_record k rest) as [g|] eqn:El; [eauto|].
  destruct Hin as [<-|Hin].
  - rewrite Hk, String.eqb_refl, Hs. simpl. eauto.
  - destruct (IH Hin Hk Hs) as [g Hg]. congruence.
Qed.

Lemma last_record_nodup k files f :
  NoDup (map filename files) -> In f files -> filename f = k -> skip_file f = false ->
  last_record k files = Some f.
Proof.
  induction files as [|f0 rest IH]; simpl; [contradiction|].
  intros Hnd Hin Hk Hs. subst k. inversion Hnd as [|? ? Hnot Hnd']; subst.
  destruct Hin as [<-|Hin].
  - rewrite last_record_none.
    + rewrite String.eqb_refl, Hs. reflexivity.
    + intros g Hg E. apply Hnot. rewrite <- E. now apply in_map.
  - now rewrite (IH Hnd' Hin eq_refl Hs).
Qed.

Lemma flat_map_nil {A B} (h : A -> list B) l :
  (forall x, In x l -> h x = []) -> flat_map h l = [].
Proof.
  induction l as [|x l IH]; intros H; simpl; [reflexivity|].
  rewrite H by (now left). apply IH. intros y Hy. apply H. now right.
Qed.

Lemma in_added_from_positions x p :
  In x (added_from 0 (split_on newline p)) <-> In x (added_positions p).
Proof. now rewrite added_from_positions. Qed.

(** Every added position of the patch is in the entry written for it. *)
Lemma file_entry_covers sl cache f p x :
  set_list_spec sl -> patch f = Some p ->
  In x (added_from 0 (split_on newline p)) -> In x (file_entry sl cache f).
Proof.
  intros Hsl Hp Hx. unfold file_entry. rewrite Hp. apply in_or_app.
  set (old := cached_positions cache (filename f)).
  destruct (mem x old) eqn:Hm.
  - left. apply (proj2 (Hsl old)). now apply mem_In.
  - right. unfold fresh_positions. apply filter_In. rewrite Hm. auto.
Qed.

Lemma first_seen_order_spec : set_list_spec first_seen_order.
Proof.
  intros xs. split; [apply NoDup_nodup|]. intros x. apply nodup_In.
Qed.

Lemma set_list_singleton sl x :
  set_list_spec sl -> sl [x] = [x].
Proof.
  intros Hsl. destruct (Hsl [x]) as [Hnd Hin].
  destruct (sl [x]) as [|y ys] eqn:E.
  - exfalso. apply (proj2 (Hin x)). now left.
  - assert (Hy : y = x) by (destruct (proj1 (Hin y) (or_introl eq_refl)) as [->|[]]; reflexivity).
    subst y. destruct ys as [|z zs]; [reflexivity|].
    assert (Hz : z = x) by (destruct (proj1 (Hin z) (or_intror (or_introl eq_refl))) as [->|[]]; reflexivity).
    subst z. inversion Hnd as [|? ? Hnot _]. exfalso. apply Hnot. now left.
Qed.

(** ** Re-review *)

(** [C2]: for a files list with pairwise distinct filenames, as the host's
    file listing of a pull request has, a second run on the same files with
    the cache returned by the first run produces no comment. *)
Theorem generate_rereview_no_comments (set_list : list Z -> list Z)
    (Hsl : set_list_spec set_list) (files : list File) (cache : Cache)
    (Hnd : NoDup (map filename files)) :
  fst (generate_review_comments set_list files
         (snd (generate_review_comments set_list files cache))) = [].
Proof.
  unfold generate_review_comments at 1. rewrite review_files_comments. simpl.
  apply flat_map_nil. intros f Hf.
  destruct (skip_file f) eqn:Hs; [now apply file_comments_skipped|].
  destruct (patch f) as [p|] eqn:Hp;
    [|unfold skip_file in Hs; rewrite Hp in Hs; discriminate].
  unfold file_comments. rewrite Hp, Hs. unfold cached_positions.
  unfold generate_review_comments.
  rewrite review_files_entry, (last_record_nodup _ _ f) by auto.
  unfold fresh_positions at 1. rewrite filter_negb_mem_covered; [reflexivity|].
  intros x Hx. eapply file_entry_covers; eauto.
Qed.

Lemma generate_rereview_no_comments_witness :
  set_list_spec first_seen_order /\ NoDup (map filename [mkFile "f.py" (Some sample_patch) "modified"]) /\
  fst (generate_review_comments first_seen_order [mkFile "f.py" (Some sample_patch) "modified"]
         (snd (generate_review_comments first_seen_order
                 [mkFile "f.py" (Some sample_patch) "modified"] [("f.py", [3%Z])]))) = [].
Proof.
  split; [exact first_seen_order_spec|].
  split; [repeat constructor; simpl; tauto|].
  apply generate_rereview_no_comments; [exact first_seen_order_spec|].
  repeat constructor; simpl; tauto.
Defined.

(** Re-review needs distinct filenames: two records for "a.py" (patches
    "+x\n+y" then "+z"); the second overwrites the entry written by the
    first, so a re-run comments again on position 2 of the first record. *)
Lemma generate_rereview_duplicate_names :
  ~ (forall set_list, set_list_spec set_list ->
     forall files cache,
       fst (generate_review_comments set_list files
              (snd (generate_review_comments set_list files cache))) = []).
Proof.
  intros H.
  specialize (H first_seen_order first_seen_order_spec
    [mkFile "a.py" (Some ("+x" ++ nl ++ "+y")) "modified";
     mkFile "a.py" (Some "+z") "modified"] []).
  vm_compute in H. discriminate H.
Qed.

(** ** Frame of the cache *)

(** [C4] (as amended): the returned cache has no entry for a filename that
    no record of the current files list carries, whatever the input cache
    held for it; the new cache is built from scratch. *)
Theorem generate_drops_absent_files (set_list : list Z -> list Z)
    (files : list File) (cache : Cache) (k : string)
    (Habs : forall f, In f files -> filename f <> k) :
  dict_get k (snd (generate_review_comments set_list files cache)) = None.
Proof.
  unfold generate_review_comments. rewrite review_files_entry.
  now rewrite last_record_none.
Qed.

Lemma generate_drops_absent_files_witness :
  (forall f, In f [mkFile "f.py" (Some sample_patch) "modified"] -> filename f <> "g.py") /\
  dict_get "g.py" (snd (generate_review_comments first_seen_order
     [mkFile "f.py" (Some sample_patch) "modified"] [("g.py", [1%Z])])) = None.
Proof.
  assert (H : forall f, In f [mkFile "f.py" (Some sample_patch) "modified"] -> filename f <> "g.py")
    by (intros f [<-|[]]; simpl; discriminate).
  split; [exact H|]. apply generate_drops_absent_files. exact H.
Defined.

(** [C4] as stated fails: with no files and the cache {"a.py": [1]}, the
    returned cache is empty. *)
Lemma generate_frame_fails :
  ~ (forall set_list files cache k,
       (forall f, In f files -> filename f <> k) ->
       dict_get k (snd (generate_review_comments set_list files cache)) =
       dict_get k cache).
Proof.
  intros H.
  specialize (H first_seen_order [] [("a.py", [1%Z])] "a.py" (fun f Hf => match Hf with end)).
  vm_compute in H. discriminate H.
Qed.

(** ** Growth of a processed file's entry *)

(** [C5] (as amended): for a file processed in the run (a record with a
    non-empty patch and status other than "removed"), the returned cache has
    an entry for its filename that keeps every position of the input entry,
    and every other position in it is an add-position of the patch of a
    processed record of that filename in this run.  A filename that no
    processed record of the run carries has no entry in the returned cache,
    whatever the input cache held for it. *)
Theorem generate_entry_grows_or_drops (set_list : list Z -> list Z)
    (Hsl : set_list_spec set_list) (files : list File) (cache : Cache) :
  (forall f, In f files -> skip_file f = false ->
   exists e,
     dict_get (filename f) (snd (generate_review_comments set_list files cache)) = Some e /\
     (forall x, In x (cached_positions cache (filename f)) -> In x e) /\
     (forall x, In x e ->
        In x (cached_positions cache (filename f)) \/
        exists g q, In g files /\ filename g = filename f /\ patch g = Some q /\
                    skip_file g = false /\ In x (added_positions q))) /\
  (forall k, (forall f, In f files -> filename f = k -> skip_file f = true) ->
   dict_get k (snd (generate_review_comments set_list files cache)) = None).
Proof.
  split.
  - intros f Hin Hs.
    destruct (last_record_exists (filename f) files f Hin eq_refl Hs) as [g Hg].
    destruct (last_record_some _ _ _ Hg) as (Hgin & Hgk & Hgs).
    destruct (patch g) as [q|] eqn:Hq;
      [|unfold skip_file in Hgs; rewrite Hq in Hgs; discriminate].
    exists (file_entry set_list cache g). split; [|split].
    + unfold generate_review_comments. now rewrite review_files_entry, Hg.
    + intros x Hx. unfold file_entry. rewrite Hq. apply in_or_app. left.
      apply (proj2 (proj2 (Hsl _) x)). now rewrite Hgk.
    + intros x Hx. unfold file_entry in Hx. rewrite Hq, Hgk in Hx.
      apply in_app_or in Hx as [Hx|Hx].
      * left. now apply (proj2 (Hsl _) x).
      * right. exists g, q. repeat split; auto.
        unfold fresh_positions in Hx. apply filter_In in Hx as [Hx _].
        now apply in_added_from_positions.
  - intros k Hk. unfold generate_review_comments. rewrite review_files_entry.
    destruct (last_record k files) as [g|] eqn:Hg; [|reflexivity].
    destruct (last_record_some _ _ _ Hg) as (Hgin & Hgk & Hgs).
    rewrite (Hk g Hgin Hgk) in Hgs. discriminate.
Qed.

Lemma generate_entry_grows_or_drops_witness :
  set_list_spec first_seen_order /\
  (forall f, In f [mkFile "f.py" (Some sample_patch) "modified"; mkFile "g.py" (Some "+x") "removed"] ->
   skip_file f = false ->
   exists e,
     dict_get (filename f) (snd (generate_review_comments first_seen_order
        [mkFile "f.py" (Some sample_patch) "modified"; mkFile "g.py" (Some "+x") "removed"]
        [("f.py", [3%Z]); ("g.py", [1%Z])])) = Some e /\
     (forall x, In x (cached_positions [("f.py", [3%Z]); ("g.py", [1%Z])] (filename f)) -> In x e) /\
     (forall x, In x e ->
        In x (cached_positions [("f.py", [3%Z]); ("g.py", [1%Z])] (filename f)) \/
        exists g q, In g [mkFile "f.py" (Some sample_patch) "modified"; mkFile "g.py" (Some "+x") "removed"] /\
                    filename g = filename f /\ patch g = Some q /\
                    skip_file g = false /\ In x (added_positions q))) /\
  (forall k, (forall f, In f [mkFile "f.py" (Some sample_patch) "modified"; mkFile "g.py" (Some "+x") "removed"] ->
              filename f = k -> skip_file f = true) ->
   dict_get k (snd (generate_review_comments first_seen_order
     [mkFile "f.py" (Some sample_patch) "modified"; mkFile "g.py" (Some "+x") "removed"]
     [("f.py", [3%Z]); ("g.py", [1%Z])])) = None).
Proof.
  split; [exact first_seen_order_spec|].
  exact (generate_entry_grows_or_drops first_seen_order first_seen_order_spec
           [mkFile "f.py" (Some sample_patch) "modified"; mkFile "g.py" (Some "+x") "removed"]
           [("f.py", [3%Z]); ("g.py", [1%Z])]).
Defined.

(** [C5] as stated fails: the entry of a file absent from the run is
    dropped, so it shrinks from [1] to nothing. *)
Lemma generate_entry_can_shrink :
  ~ (forall set_list, set_list_spec set_list ->
     forall files cache k x,
       In x (cached_positions cache k) ->
       exists e, dict_get k (snd (generate_review_comments set_list files cache)) = Some e /\
                 In x e).
Proof.
  intros H.
  destruct (H first_seen_order first_seen_order_spec [] [("a.py", [1%Z])] "a.py" 1%Z
              (or_introl eq_refl)) as (e & He & _).
  vm_compute in He. discriminate He.
Qed.

(** ** Skipped records *)

(** [C8]: a record with no patch, an empty patch or status "removed"
    contributes nothing: removing it from the files list changes neither the
    comments nor the returned cache. *)
Theorem generate_skipped_file_inert (set_list : list Z -> list Z)
    (files1 files2 : list File) (f : File) (cache : Cache)
    (Hs : skip_file f = true) :
  generate_review_comments set_list (app files1 (f :: files2)) cache =
  generate_review_comments set_list (app files1 files2) cache.
Proof.
  unfold generate_review_comments. rewrite !review_files_app.
  destruct (review_files set_list cache files1 [] []) as [cs nc].
  now apply review_files_cons_skipped.
Qed.

Lemma generate_skipped_file_inert_witness :
  skip_file (mkFile "g.py" (Some "+x") "removed") = true /\
  generate_review_comments first_seen_order
    (app [mkFile "f.py" (Some sample_patch) "modified"]
         (mkFile "g.py" (Some "+x") "removed" :: [mkFile "h.py" None "added"])) []
  = generate_review_comments first_seen_order
    (app [mkFile "f.py" (Some sample_patch) "modified"] [mkFile "h.py" None "added"]) [].
Proof.
  split; [reflexivity|]. apply generate_skipped_file_inert. reflexivity.
Defined.

(** ** The worked example of the spec *)

(** [C9]: for "f.py" with patch "@@ -1,2 +1,3 @@\n-foo\n+bar\n+baz\n context"
    and cache {"f.py": [3]}, exactly one comment is emitted, at position 4,
    and the new entry for "f.py" is [3, 4]. *)
Theorem generate_worked_example (set_list : list Z -> list Z)
    (Hsl : set_list_spec set_list) :
  generate_review_comments set_list [mkFile "f.py" (Some sample_patch) "modified"]
    [("f.py", [3%Z])]
  = ([mkComment "f.py" 4 suggestion_body], [("f.py", [3; 4]%Z)]).
Proof.
  unfold generate_review_comments. cbn. rewrite (set_list_singleton _ 3 Hsl).
  reflexivity.
Qed.

Lemma generate_worked_example_witness :
  set_list_spec first_seen_order /\
  generate_review_comments first_seen_order [mkFile "f.py" (Some sample_patch) "modified"]
    [("f.py", [3%Z])]
  = ([mkComment "f.py" 4 suggestion_body], [("f.py", [3; 4]%Z)]).
Proof.
  split; [exact first_seen_order_spec|].
  apply generate_worked_example. exact first_seen_order_spec.
Defined.

(** ** What a successful parse consumes *)

Lemma str_app_assoc (a b c : string) : (a ++ b) ++ c = a ++ (b ++ c).
Proof. induction a as [|x a IH]; simpl; [reflexivity|]. now rewrite IH. Qed.

Lemma suffix_of_app t s : suffix_of t s -> exists w, s = w ++ t.
Proof.
  induction 1 as [t|c t s _ [w ->]]; [now exists EmptyString|].
  now exists (String c w).
Qed.

Lemma closes_suffix s t rest : suffix_of t s -> closes t rest -> closes s rest.
Proof.
  intros Hs (pre & c & -> & Hc). apply suffix_of_app in Hs as [w ->].
  exists (w ++ pre), c. split; [now rewrite str_app_assoc | exact Hc].
Qed.

Lemma closes_trans a b c : closes a b -> closes b c -> closes a c.
Proof.
  intros (p & x & -> & _) (p' & y & -> & Hy).
  exists (p ++ String x p'), y. split; [now rewrite str_app_assoc | exact Hy].
Qed.

Lemma closes_here c r : c <> ">"%char -> closes (String c r) r.
Proof. intros Hc. now exists EmptyString, c. Qed.

Lemma skip_ws_suffix s : suffix_of (skip_ws s) s.
Proof.
  induction s as [|c r IH]; simpl; [constructor|].
  destruct (is_ws c); [now constructor | constructor].
Qed.

Lemma digit_not_gt c : is_digit c = true -> c <> ">"%char.
Proof. intros H E. subst. discriminate H. Qed.

Lemma span_digits_closes s : forall c ds rest,
  is_digit c = true -> span_digits s = (ds, rest) -> closes (String c s) rest.
Proof.
  induction s as [|d r IH]; intros c ds rest Hc Hs; simpl in Hs.
  - injection Hs as <- <-. now apply closes_here, digit_not_gt.
  - destruct (is_digit d) eqn:Hd.
    + destruct (span_digits r) as [ds' rest'] eqn:Hr. injection Hs as <- <-.
      apply (closes_suffix _ (String d r)); [repeat constructor|].
      now apply (IH d ds').
    + injection Hs as <- <-. now apply closes_here, digit_not_gt.
Qed.

Lemma span_digits_nonempty s c ds rest :
  span_digits s = (String c ds, rest) -> closes s rest.
Proof.
  destruct s as [|d r]; simpl; [discriminate|].
  destruct (is_digit d) eqn:Hd; [|discriminate].
  destruct (span_digits r) as [ds' rest'] eqn:Hr. intros [= <- <- <-].
  now apply (span_digits_closes r d ds').
Qed.

Lemma match_frac_closes s frac rest : match_frac s = Some (frac, rest) -> closes s rest.
Proof.
  destruct s as [|c r]; simpl; [discriminate|].
  destruct (Ascii.eqb c "."%char); [|discriminate].
  destruct (span_digits r) as [[|d ds] rest'] eqn:Hr; [discriminate|].
  intros [= _ <-]. apply (closes_suffix _ r); [repeat constructor|].
  now apply (span_digits_nonempty _ d ds).
Qed.

Lemma match_exp_closes s e rest : match_exp s = Some (e, rest) -> closes s rest.
Proof.
  destruct s as [|c r]; simpl; [discriminate|].
  destruct (Ascii.eqb c "e"%char || Ascii.eqb c "E"%char); [|discriminate].
  assert (Hsf : exists sign r', suffix_of r' r /\
            (let '(sign0, r0) := match r with
                                 | String d r'' =>
                                     if Ascii.eqb d "-"%char || Ascii.eqb d "+"%char
                                     then (String d EmptyString, r'') else (EmptyString, r)
                                 | EmptyString => (EmptyString, r)
                                 end in (sign0, r0)) = (sign, r')).
  { destruct r as [|d r'']; [exists EmptyString, EmptyString; split; constructor|].
    destruct (Ascii.eqb d "-"%char || Ascii.eqb d "+"%char).
    - exists (String d EmptyString), r''. split; [repeat constructor | reflexivity].
    - exists EmptyString, (String d r''). split; [constructor | reflexivity]. }
  destruct Hsf as (sign & r' & Hsuf & Heq).
  destruct (match r with
            | String d r'' =>
                if Ascii.eqb d "-"%char || Ascii.eqb d "+"%char
                then (String d EmptyString, r'') else (EmptyString, r)
            | EmptyString => (EmptyString, r)
            end) as [sign0 r0]. injection Heq as -> ->.
  destruct (span_digits r') as [[|d ds] rest'] eqn:Hr; [discriminate|].
  intros [= _ <-]. apply (closes_suffix _ r'); [now constructor|].
  now apply (span_digits_nonempty _ d ds).
Qed.

Lemma split_sign_suffix s neg s1 : split_sign s = (neg, s1) -> suffix_of s1 s.
Proof.
  destruct s as [|c r]; simpl; [intros [= _ <-]; constructor|].
  destruct (Ascii.eqb c "-"%char); intros [= _ <-]; repeat constructor.
Qed.

Lemma match_int_closes s1 int_s r1 : match_int s1 = Some (int_s, r1) -> closes s1 r1.
Proof.
  destruct s1 as [|c r]; simpl; [discriminate|].
  destruct (Ascii.eqb c "0"%char) eqn:E0.
  - intros [= _ <-]. apply closes_here. apply Ascii.eqb_eq in E0. now subst.
  - destruct (is_digit c) eqn:Hd; [|discriminate].
    destruct (span_digits r) as [ds rest] eqn:Hr. intros [= _ <-].
    now apply (span_digits_closes r c ds).
Qed.

Lemma parse_number_closes s v rest : parse_number s = Some (v, rest) -> closes s rest.
Proof.
  unfold parse_number.
  destruct (split_sign s) as [neg s1] eqn:Hsg. apply split_sign_suffix in Hsg.
  destruct (match_int s1) as [[int_s r1]|] eqn:Hi; [|discriminate].
  apply match_int_closes in Hi.
  intros H. apply (closes_suffix _ s1 _ Hsg).
  assert (Htail : rest = r1 \/ closes r1 rest).
  { destruct (match_frac r1) as [[f r2]|] eqn:Hf.
    - apply match_frac_closes in Hf. right.
      destruct (match_exp r2) as [[e r3]|] eqn:He; injection H as _ <-; [|exact Hf].
      apply match_exp_closes in He. now apply (closes_trans _ r2).
    - destruct (match_exp r1) as [[e r3]|] eqn:He; injection H as _ <-; [|now left].
      right. now apply match_exp_closes in He. }
  destruct Htail as [->|Ht]; [exact Hi | exact (closes_trans _ _ _ Hi Ht)].
Qed.

Lemma prepend_some pre o str rest :
  prepend pre o = Some (str, rest) -> exists str', o = Some (str', rest).
Proof. destruct o as [[a b]|]; simpl; [intros [= _ <-]; eauto | discriminate]. Qed.

Lemma quote_not_gt : quote <> ">"%char.
Proof. discriminate. Qed.

(** A string literal ends at its closing quote. *)
Lemma scan_string_closes : forall n s str rest,
  String.length s <= n -> scan_string s = Some (str, rest) -> closes s rest.
Proof.
  induction n as [|n IH]; intros s str rest Hlen H.
  - destruct s; [discriminate H | simpl in Hlen; lia].
  - destruct s as [|c r]; [discriminate H|].
    cbn [scan_string] in H.
    repeat match type of H with
    | context [match ?x with _ => _ end] =>
        lazymatch x with
        | scan_string _ => fail
        | _ => destruct x eqn:?
        end
    end;
    subst; try discriminate H;
    try first
      [ injection H as _ <-; apply closes_here;
        match goal with E : Ascii.eqb _ quote = true |- _ => apply Ascii.eqb_eq in E end;
        subst; exact quote_not_gt
      | apply prepend_some in H as [? H];
        match type of H with
        | scan_string ?t = _ =>
            apply (closes_suffix _ t); [repeat constructor|];
            apply (IH t _ _); [simpl in Hlen; lia | exact H]
        end ].
    all: destruct (prepend_some _ _ _ _ H) as [x H'].
    all: match type of H' with
        | scan_string ?t = _ =>
            apply (closes_suffix _ t); [suffix_solve|];
            exact (IH t x rest ltac:(simpl in *; lia) H')
        end.
Qed.

Lemma suffix_trans a b c : suffix_of a b -> suffix_of b c -> suffix_of a c.
Proof. intros Hab Hbc. induction Hbc; [exact Hab | constructor; auto]. Qed.

Lemma closes_then a b c d : closes a b -> suffix_of c b -> closes c d -> closes a d.
Proof.
  intros (p & x & -> & _) Hs Hc. apply suffix_of_app in Hs as [w ->].
  destruct Hc as (p' & y & -> & Hy).
  exists (p ++ String x (w ++ p')), y. split; [|exact Hy].
  rewrite str_app_assoc. simpl. now rewrite str_app_assoc.
Qed.

(** A delimiter found after optional whitespace. *)
Lemma skip_ws_delim r d r' :
  skip_ws r = String d r' -> d <> ">"%char -> closes r r'.
Proof.
  intros Hw Hd. apply (closes_suffix _ (String d r')); [|now apply closes_here].
  rewrite <- Hw. apply skip_ws_suffix.
Qed.

Lemma skip_ws_delim_suffix r d r' :
  skip_ws r = String d r' -> suffix_of (skip_ws r') r.
Proof.
  intros Hw. apply (suffix_trans _ r'); [apply skip_ws_suffix|].
  apply (suffix_trans _ (String d r')); [repeat constructor|].
  rewrite <- Hw. apply skip_ws_suffix.
Qed.

Lemma strip_prefix_app pre : forall s r, strip_prefix pre s = Some r -> s = pre ++ r.
Proof.
  induction pre as [|a pre IH]; intros s r; simpl; [now intros [= ->]|].
  destruct s as [|b s]; [discriminate|].
  destruct (Ascii.eqb a b) eqn:E; [|discriminate].
  apply Ascii.eqb_eq in E. subst. intros H. now rewrite (IH _ _ H).
Qed.

Lemma literal_closes pre0 c s r :
  strip_prefix (pre0 ++ String c EmptyString) s = Some r -> c <> ">"%char -> closes s r.
Proof.
  intros H Hc. apply strip_prefix_app in H. subst s.
  exists pre0, c. split; [now rewrite str_app_assoc | exact Hc].
Qed.

(** Every successful parse of a value, of object members or of array
    elements ends on a character other than ['>']. *)
Lemma parse_closes : forall n,
  (forall s v rest, parse_value n s = Some (v, rest) -> closes s rest) /\
  (forall s acc kvs rest, parse_members n s acc = Some (kvs, rest) -> closes s rest) /\
  (forall s acc items rest, parse_elements n s acc = Some (items, rest) -> closes s rest).
Proof.
  induction n as [|n (IHv & IHm & IHe)]; [repeat split; intros; discriminate|].
  split; [|split].
  - intros s v rest H. destruct s as [|c r]; [discriminate|]. cbn [parse_value] in H.
    destruct (Ascii.eqb c quote) eqn:Eq.
    { destruct (scan_string r) as [[str r1]|] eqn:Hs; [|discriminate]. injection H as _ <-.
      apply (closes_suffix _ r); [suffix_solve|].
      exact (scan_string_closes _ r str r1 (le_n _) Hs). }
    destruct (Ascii.eqb c "{"%char) eqn:Eo.
    { apply (closes_suffix _ r); [suffix_solve|].
      destruct (skip_ws r) as [|d r'] eqn:Hw; [discriminate|].
      destruct (Ascii.eqb d "}"%char) eqn:Ec.
      - injection H as _ <-. apply (skip_ws_delim _ d); [exact Hw|].
        apply Ascii.eqb_eq in Ec. now subst.
      - destruct (parse_members n (String d r') []) as [[kvs r1]|] eqn:Hm; [|discriminate].
        injection H as _ <-. apply (closes_suffix _ (String d r')).
        + rewrite <- Hw. apply skip_ws_suffix.
        + exact (IHm _ _ _ _ Hm). }
    destruct (Ascii.eqb c "["%char) eqn:Ea.
    { apply (closes_suffix _ r); [suffix_solve|].
      destruct (skip_ws r) as [|d r'] eqn:Hw; [discriminate|].
      destruct (Ascii.eqb d "]"%char) eqn:Ec.
      - injection H as _ <-. apply (skip_ws_delim _ d); [exact Hw|].
        apply Ascii.eqb_eq in Ec. now subst.
      - destruct (parse_elements n (String d r') []) as [[items r1]|] eqn:He; [|discriminate].
        injection H as _ <-. apply (closes_suffix _ (String d r')).
        + rewrite <- Hw. apply skip_ws_suffix.
        + exact (IHe _ _ _ _ He). }
    destruct (strip_prefix "null" (String c r)) as [r1|] eqn:Hl.
    { injection H as _ <-. now apply (literal_closes "nul" "l"%char). }
    destruct (strip_prefix "true" (String c r)) as [r1|] eqn:Hl2.
    { injection H as _ <-. now apply (literal_closes "tru" "e"%char). }
    destruct (strip_prefix "false" (String c r)) as [r1|] eqn:Hl3.
    { injection H as _ <-. now apply (literal_closes "fals" "e"%char). }
    destruct (strip_prefix "NaN" (String c r)) as [r1|] eqn:Hl4.
    { injection H as _ <-. now apply (literal_closes "Na" "N"%char). }
    destruct (strip_prefix "Infinity" (String c r)) as [r1|] eqn:Hl5.
    { injection H as _ <-. now apply (literal_closes "Infinit" "y"%char). }
    destruct (strip_prefix "-Infinity" (String c r)) as [r1|] eqn:Hl6.
    { injection H as _ <-. now apply (literal_closes "-Infinit" "y"%char). }
    exact (parse_number_closes _ _ _ H).
  - intros s acc kvs rest H. destruct s as [|c r]; [discriminate|]. cbn [parse_members] in H.
    destruct (Ascii.eqb c quote) eqn:Eq; [|discriminate].
    destruct (scan_string r) as [[key r1]|] eqn:Hs; [|discriminate].
    assert (H1 : closes (String c r) r1).
    { apply (closes_suffix _ r); [suffix_solve|].
      exact (scan_string_closes _ r key r1 (le_n _) Hs). }
    destruct (skip_ws r1) as [|colon r2] eqn:Hw1; [discriminate|].
    destruct (Ascii.eqb colon ":"%char); [|discriminate].
    destruct (parse_value n (skip_ws r2)) as [[v r3]|] eqn:Hv; [|discriminate].
    apply IHv in Hv.
    assert (H2 : closes (String c r) r3).
    { apply (closes_then _ r1 (skip_ws r2)); [exact H1 | |exact Hv].
      exact (skip_ws_delim_suffix _ _ _ Hw1). }
    destruct (skip_ws r3) as [|d r4] eqn:Hw3; [discriminate|].
    destruct (Ascii.eqb d "}"%char) eqn:Ec.
    + injection H as _ <-. apply (closes_trans _ r3); [exact H2|].
      apply (skip_ws_delim _ d); [exact Hw3|]. apply Ascii.eqb_eq in Ec. now subst.
    + destruct (Ascii.eqb d ","%char); [|discriminate].
      apply (closes_then _ r3 (skip_ws r4)); [exact H2 | |exact (IHm _ _ _ _ H)].
      exact (skip_ws_delim_suffix _ _ _ Hw3).
  - intros s acc items rest H. cbn [parse_elements] in H.
    destruct (parse_value n s) as [[v r3]|] eqn:Hv; [|discriminate].
    apply IHv in Hv.
    destruct (skip_ws r3) as [|d r4] eqn:Hw3; [discriminate|].
    destruct (Ascii.eqb d "]"%char) eqn:Ec.
    + injection H as _ <-. apply (closes_trans _ r3); [exact Hv|].
      apply (skip_ws_delim _ d); [exact Hw3|]. apply Ascii.eqb_eq in Ec. now subst.
    + destruct (Ascii.eqb d ","%char); [|discriminate].
      apply (closes_then _ r3 (skip_ws r4)); [exact Hv | |exact (IHe _ _ _ _ H)].
      exact (skip_ws_delim_suffix _ _ _ Hw3).
Qed.

Lemma last_char_none r : last_char r = None -> r = EmptyString.
Proof.
  induction r as [|c r IH]; [reflexivity|]. simpl.
  destruct r as [|d r']; [discriminate|]. intros H. specialize (IH H). discriminate IH.
Qed.

Lemma last_char_app a : forall c r,
  last_char (a ++ String c r) =
  match last_char r with Some d => Some d | None => Some c end.
Proof.
  induction a as [|x a IH]; intros c r; simpl.
  - destruct r as [|d r']; [reflexivity|].
    destruct (last_char (String d r')) eqn:E; [reflexivity|].
    apply last_char_none in E. discriminate E.
  - rewrite <- IH. destruct (a ++ String c r) eqn:E; [|reflexivity].
    destruct a; discriminate E.
Qed.

Lemma last_char_ws r : skip_ws r = EmptyString -> forall d, last_char r = Some d -> is_ws d = true.
Proof.
  induction r as [|c r IH]; simpl; [discriminate|].
  destruct (is_ws c) eqn:Hc; [|discriminate].
  intros Hs d. destruct r as [|c' r'].
  - now intros [= <-].
  - now apply IH.
Qed.

(** [json.loads] rejects any text ending in ['>']: no JSON value ends with
    it and whitespace is the only thing allowed after the value. *)
Lemma json_loads_gt t : json_loads (t ++ ">") = None.
Proof.
  unfold json_loads.
  destruct (parse_value _ (skip_ws (t ++ ">"))) as [[v rest]|] eqn:H; [|reflexivity].
  destruct (String.eqb (skip_ws rest) "") eqn:E; [|reflexivity].
  exfalso. apply String.eqb_eq in E.
  destruct (proj1 (parse_closes _) _ _ _ H) as (pre & c & Hpre & Hc).
  destruct (suffix_of_app _ _ (skip_ws_suffix (t ++ ">"))) as [w Hw].
  rewrite Hpre, <- str_app_assoc in Hw.
  assert (Hl := f_equal last_char Hw).
  rewrite last_char_app in Hl. change (t ++ ">") with (t ++ String ">"%char EmptyString) in Hl.
  rewrite last_char_app in Hl. simpl in Hl.
  destruct (last_char rest) as [d|] eqn:Hd.
  - injection Hl as Hl. pose proof (last_char_ws _ E d Hd) as Hws. subst d.
    discriminate Hws.
  - injection Hl as Hl. subst c. now apply Hc.
Qed.

(** ** Save then load *)

Lemma after_marker x : after_first_newline (META_MARKER ++ nl ++ x) = Some x.
Proof. reflexivity. Qed.

(** [C3] fails: for every cache, [get_cached_reviewed_lines] on the comment
    posted by [post_metadata_comment] returns the empty cache, because the
    JSON payload is read together with the closing "\n-->" line and
    [json.loads] rejects it ("Extra data"). *)
Theorem load_after_save_is_empty (reviewed_lines : json) :
  get_cached_reviewed_lines [metadata_body reviewed_lines] = JObj [].
Proof.
  unfold get_cached_reviewed_lines, metadata_body.
  assert (Ht : try_meta (META_MARKER ++ nl ++ json_dumps_indent2
                 (JObj [("reviewed", reviewed_lines)]) ++ nl ++ "-->") = None).
  { unfold try_meta. rewrite after_marker.
    replace (json_dumps_indent2 (JObj [("reviewed", reviewed_lines)]) ++ nl ++ "-->")
      with ((json_dumps_indent2 (JObj [("reviewed", reviewed_lines)]) ++ nl ++ "--") ++ ">")
      by (rewrite !str_app_assoc; reflexivity).
    now rewrite json_loads_gt. }
  rewrite Ht. now destruct (startswith _ _).
Qed.

Example load_after_save_example :
  get_cached_reviewed_lines [metadata_body (cache_to_json [("f.py", [3%Z])])] = JObj []
  /\ cache_to_json [("f.py", [3%Z])] <> JObj [].
Proof. split; [reflexivity | discriminate]. Qed.

(** ** Loading the cache *)


(** [C6]: when every comment starting with the sentinel marker has no
    payload line, a malformed JSON payload, or JSON without a "reviewed"
    field (in particular when no comment starts with the marker), the loaded
    cache is empty; the function is total, no error escapes. *)
Theorem load_fails_soft (bodies : list string)
    (Hbad : forall b, In b bodies -> startswith b META_MARKER = true ->
                      sentinel_without_cache b) :
  get_cached_reviewed_lines bodies = JObj [].
Proof.
  induction bodies as [|b rest IH]; simpl; [reflexivity|].
  assert (IH' : get_cached_reviewed_lines rest = JObj [])
    by (apply IH; intros b' Hb'; apply Hbad; now right).
  destruct (startswith b META_MARKER) eqn:Hs; [|exact IH'].
  specialize (Hbad b (or_introl eq_refl) Hs). unfold sentinel_without_cache in Hbad.
  unfold try_meta.
  destruct (after_first_newline b) as [payload|]; [|exact IH'].
  destruct (json_loads payload) as [[]|]; try exact IH'.
  now rewrite Hbad.
Qed.

Lemma load_fails_soft_witness :
  (forall b, In b ["LGTM"; META_MARKER ++ nl ++ "{bad"; META_MARKER ++ nl ++ "[1]";
                   META_MARKER ++ nl ++ "{}"] ->
             startswith b META_MARKER = true -> sentinel_without_cache b) /\
  get_cached_reviewed_lines ["LGTM"; META_MARKER ++ nl ++ "{bad"; META_MARKER ++ nl ++ "[1]";
                             META_MARKER ++ nl ++ "{}"] = JObj [].
Proof.
  assert (H : forall b, In b ["LGTM"; META_MARKER ++ nl ++ "{bad"; META_MARKER ++ nl ++ "[1]";
                              META_MARKER ++ nl ++ "{}"] ->
              startswith b META_MARKER = true -> sentinel_without_cache b).
  { intros b Hb. simpl in Hb.
    destruct Hb as [<-|[<-|[<-|[<-|[]]]]]; vm_compute; auto; discriminate. }
  split; [exact H | exact (load_fails_soft _ H)].
Defined.




(** ** The driver *)

(** [C10]: a run of the driver either changes nothing on the pull request
    (only prints), or it produced at least one new comment and then posts
    exactly the review first and the cache comment second.  A run whose
    [generate_review_comments] returns no comment is thus in the first case. *)
Theorem driver_writes_only_after_review (set_list : list Z -> list Z) (pr : PR)
    (effs : list Effect) (Hrun : run_pr_review set_list pr = Some effs) :
  (forall e, In e effs -> is_write e = false) \/
  exists cache comments new_cache,
    cache_of_json (get_cached_reviewed_lines (pr_issue_comments pr)) = Some cache /\
    generate_review_comments set_list (pr_files pr) cache = (comments, new_cache) /\
    comments <> [] /\
    effs = [ECreateReview review_body "COMMENT" comments;
            ECreateIssueComment (metadata_body (cache_to_json new_cache))].
Proof.
  unfold run_pr_review in Hrun.
  destruct (negb (existsb (String.eqb BOT_USER) (pr_review_requests pr))).
  { injection Hrun as <-. left. intros e [<-|[]]. reflexivity. }
  destruct (cache_of_json (get_cached_reviewed_lines (pr_issue_comments pr))) as [cache|] eqn:Hc;
    [|discriminate].
  destruct (generate_review_comments set_list (pr_files pr) cache) as [comments new_cache] eqn:Hg.
  destruct comments as [|c cs].
  - injection Hrun as <-. left. intros e [<-|[]]. reflexivity.
  - injection Hrun as <-. right. exists cache, (c :: cs), new_cache.
    split; [first [exact Hc | reflexivity]|].
    split; [first [exact Hg | reflexivity]|]. split; [discriminate | reflexivity].
Qed.

(** Corollary form of [C10] for a run whose comments are empty. *)
Lemma driver_no_comments_no_writes set_list pr effs cache new_cache :
  run_pr_review set_list pr = Some effs ->
  cache_of_json (get_cached_reviewed_lines (pr_issue_comments pr)) = Some cache ->
  generate_review_comments set_list (pr_files pr) cache = ([], new_cache) ->
  forall e, In e effs -> is_write e = false.
Proof.
  intros Hrun Hc Hg. unfold run_pr_review in Hrun. rewrite Hc, Hg in Hrun.
  destruct (negb _); injection Hrun as <-; intros e [<-|[]]; reflexivity.
Qed.

Lemma driver_writes_only_after_review_witness :
  exists effs,
    run_pr_review first_seen_order
      (mkPR ["dhp-pr-review-bot"] ["LGTM"] [mkFile "f.py" (Some sample_patch) "modified"])
    = Some effs /\
    ((forall e, In e effs -> is_write e = false) \/
     exists cache comments new_cache,
       cache_of_json (get_cached_reviewed_lines ["LGTM"]) = Some cache /\
       generate_review_comments first_seen_order
         [mkFile "f.py" (Some sample_patch) "modified"] cache = (comments, new_cache) /\
       comments <> [] /\
       effs = [ECreateReview review_body "COMMENT" comments;
               ECreateIssueComment (metadata_body (cache_to_json new_cache))]).
Proof.
  eexists. split; [vm_compute; reflexivity|].
  apply (driver_writes_only_after_review first_seen_order
           (mkPR ["dhp-pr-review-bot"] ["LGTM"] [mkFile "f.py" (Some sample_patch) "modified"])).
  vm_compute. reflexivity.
Defined.


(* ================================================================== *)
(** * Further properties of the code *)

(** ** Serialise, then parse *)

Lemma str_app_nil (s : string) : s ++ "" = s.
Proof. induction s as [|c s IH]; simpl; [reflexivity|now rewrite IH]. Qed.

Lemma str_length_app (a b : string) : String.length (a ++ b) = String.length a + String.length b.
Proof. induction a as [|c a IH]; simpl; [reflexivity|now rewrite IH]. Qed.

Lemma escape_char_scan c r :
  (nat_of_ascii c < 128)%nat ->
  scan_string (escape_ascii (String c EmptyString) ++ r) = prepend (String c EmptyString) (scan_string r).
Proof.
  destruct c as [b0 b1 b2 b3 b4 b5 b6 b7].
  destruct b0, b1, b2, b3, b4, b5, b6, b7; intros H;
    first [reflexivity | exfalso; vm_compute in H; lia].
Qed.

Lemma escape_ascii_cons c s :
  escape_ascii (String c s) = escape_ascii (String c EmptyString) ++ escape_ascii s.
Proof. cbn [escape_ascii]. now rewrite str_app_nil. Qed.

Lemma scan_escape s r :
  is_ascii_str s = true -> scan_string (escape_ascii s ++ q ++ r) = Some (s, r).
Proof.
  induction s as [|c s IH]; intros H; [reflexivity|].
  unfold is_ascii_str in H. simpl in H. apply andb_true_iff in H as [Hc Hs].
  rewrite escape_ascii_cons, str_app_assoc, escape_char_scan by (apply Nat.ltb_lt; exact Hc).
  rewrite IH by exact Hs. reflexivity.
Qed.

(** *** Decimal digits *)
Lemma dec_digits_acc f : forall n acc, dec_digits f n acc = dec_digits f n "" ++ acc.
Proof.
  induction f as [|f IH]; intros n acc; [reflexivity|].
  cbn [dec_digits]. destruct (n <? 10)%N; [reflexivity|].
  rewrite (IH _ (String _ acc)), (IH _ (String _ "")), str_app_assoc. reflexivity.
Qed.

Lemma digit_nat m : (m < 10)%N -> nat_of_ascii (ascii_of_N (48 + m)) = (48 + N.to_nat m)%nat.
Proof.
  intros Hm. unfold nat_of_ascii. rewrite N_ascii_embedding by lia. lia.
Qed.

Lemma digit_is_digit m : (m < 10)%N -> is_digit (ascii_of_N (48 + m)) = true.
Proof.
  intros Hm. unfold is_digit. rewrite digit_nat by exact Hm.
  apply andb_true_iff; split; apply Nat.leb_le; lia.
Qed.

Lemma z_of_digits_app a s t :
  z_of_digits_acc a (s ++ t) = z_of_digits_acc (z_of_digits_acc a s) t.
Proof. revert a. induction s as [|c s IH]; intros a; simpl; [reflexivity|apply IH]. Qed.

Lemma all_digits_app s t : all_digits (s ++ t) = all_digits s && all_digits t.
Proof.
  induction s as [|c s IH]; [reflexivity|].
  unfold all_digits in *. simpl. rewrite IH. apply andb_assoc.
Qed.

Lemma dec_digits_value f : forall n,
  (n < 10 ^ N.of_nat f)%N ->
  z_of_digits_acc 0 (dec_digits f n "") = Z.of_N n /\ all_digits (dec_digits f n "") = true.
Proof.
  induction f as [|f IH]; intros n Hn.
  - simpl in Hn. assert (n = 0%N) by lia. subst. split; reflexivity.
  - assert (Hm : (n mod 10 < 10)%N) by (apply N.mod_lt; lia).
    assert (Hdm := N.div_mod n 10 ltac:(lia)).
    cbn [dec_digits]. destruct (n <? 10)%N eqn:Hlt.
    + apply N.ltb_lt in Hlt. rewrite N.mod_small in * by exact Hlt.
      split.
      * cbn [z_of_digits_acc]. rewrite digit_nat by exact Hlt. lia.
      * unfold all_digits. cbn [list_ascii_of_string forallb]. now rewrite digit_is_digit.
    + apply N.ltb_ge in Hlt.
      assert (Hd : (n / 10 < 10 ^ N.of_nat f)%N).
      { apply N.Div0.div_lt_upper_bound. rewrite Nat2N.inj_succ, N.pow_succ_r' in Hn. lia. }
      destruct (IH _ Hd) as [Hv Ha].
      rewrite dec_digits_acc, z_of_digits_app, Hv, all_digits_app, Ha. split.
      * cbn [z_of_digits_acc]. rewrite digit_nat by exact Hm. clear -Hdm Hm. assert (E : Z.of_N n = Z.of_N (10 * (n / 10) + n mod 10)) by (f_equal; exact Hdm). rewrite E. generalize (n / 10)%N (n mod 10)%N. intros a b. lia.
      * unfold all_digits. cbn [list_ascii_of_string forallb]. now rewrite digit_is_digit.
Qed.

Lemma dec_digits_head f : forall n,
  (0 < n)%N -> (n < 10 ^ N.of_nat f)%N ->
  exists c t, dec_digits f n "" = String c t /\ c <> "0"%char.
Proof.
  induction f as [|f IH]; intros n Hpos Hn; [simpl in Hn; lia|].
  assert (Hm : (n mod 10 < 10)%N) by (apply N.mod_lt; lia).
  cbn [dec_digits]. destruct (n <? 10)%N eqn:Hlt.
  - apply N.ltb_lt in Hlt. rewrite N.mod_small by exact Hlt.
    eexists _, _. split; [reflexivity|]. intros E.
    apply (f_equal nat_of_ascii) in E. rewrite digit_nat in E by exact Hlt.
    change (nat_of_ascii "0"%char) with 48%nat in E. lia.
  - apply N.ltb_ge in Hlt.
    assert (Hd : (n / 10 < 10 ^ N.of_nat f)%N).
    { apply N.Div0.div_lt_upper_bound. rewrite Nat2N.inj_succ, N.pow_succ_r' in Hn. lia. }
    assert (Hp : (0 < n / 10)%N) by (apply N.div_str_pos; lia).
    destruct (IH _ Hp Hd) as (c & t & Ht & Hc).
    rewrite dec_digits_acc, Ht. eexists _, _. split; [reflexivity | exact Hc].
Qed.

Lemma size_nat_bound n : (n < 10 ^ N.of_nat (S (N.size_nat n)))%N.
Proof.
  assert (H2 : forall p, (Npos p < 2 ^ N.of_nat (Pos.size_nat p))%N).
  { induction p as [p IH|p IH|]; simpl Pos.size_nat.
    - rewrite Nat2N.inj_succ, N.pow_succ_r'. lia.
    - rewrite Nat2N.inj_succ, N.pow_succ_r'. lia.
    - simpl. lia. }
  assert (H10 : forall k, (2 ^ k <= 10 ^ k)%N) by (intros k; apply N.pow_le_mono_l; lia).
  destruct n as [|p]; [simpl; lia|].
  specialize (H2 p). specialize (H10 (N.of_nat (Pos.size_nat p))).
  simpl N.size_nat. rewrite Nat2N.inj_succ, N.pow_succ_r'. lia.
Qed.

Lemma digit_neq c x : is_digit c = true -> is_digit x = false -> Ascii.eqb c x = false.
Proof.
  intros Hc Hx. destruct (Ascii.eqb c x) eqn:E; [|reflexivity].
  apply Ascii.eqb_eq in E. subst. congruence.
Qed.

Lemma stops_not_digit r : stops r = true ->
  match r with String c _ => is_digit c = false | EmptyString => True end.
Proof.
  destruct r as [|c r]; [trivial|]. simpl. intros H.
  apply orb_true_iff in H as [H|H]; apply Ascii.eqb_eq in H; subst; reflexivity.
Qed.

Lemma span_digits_app t r :
  all_digits t = true -> stops r = true -> span_digits (t ++ r) = (t, r).
Proof.
  intros Ht Hr. induction t as [|c t IH].
  - simpl. destruct r as [|d r]; [reflexivity|].
    pose proof (stops_not_digit _ Hr) as Hd. simpl in Hd. simpl. now rewrite Hd.
  - unfold all_digits in Ht. simpl in Ht. apply andb_true_iff in Ht as [Hc Ht].
    simpl. rewrite Hc. now rewrite IH.
Qed.

Lemma stops_no_frac_exp r : stops r = true -> match_frac r = None /\ match_exp r = None.
Proof.
  destruct r as [|c r]; [split; reflexivity|]. simpl. intros H.
  apply orb_true_iff in H as [H|H]; apply Ascii.eqb_eq in H; subst; split; reflexivity.
Qed.

Lemma parse_digits (neg : bool) (c : ascii) (t r : string) :
  is_digit c = true -> c <> "0"%char -> all_digits t = true -> stops r = true ->
  parse_number ((if neg then "-" else "") ++ String c t ++ r) =
  Some (JInt (if neg then (- z_of_digits_acc 0 (String c t))%Z
              else z_of_digits_acc 0 (String c t)), r).
Proof.
  intros Hc H0 Ht Hr. destruct (stops_no_frac_exp _ Hr) as [Hf He].
  assert (Hm : Ascii.eqb c "-"%char = false) by (apply digit_neq; [exact Hc | reflexivity]).
  assert (Hz : Ascii.eqb c "0"%char = false)
    by (destruct (Ascii.eqb c "0"%char) eqn:E; [apply Ascii.eqb_eq in E; contradiction|reflexivity]).
  unfold parse_number.
  destruct neg; simpl; rewrite ?Hm; cbv beta iota zeta; unfold match_int;
    rewrite Hz, Hc, span_digits_app by assumption; rewrite Hf, He; reflexivity.
Qed.

Lemma parse_number_int z r : stops r = true -> parse_number (int_repr z ++ r) = Some (JInt z, r).
Proof.
  intros Hr. unfold int_repr.
  pose proof (size_nat_bound (Z.abs_N z)) as Hb.
  destruct (dec_digits_value _ _ Hb) as [Hv Ha].
  destruct (N.eq_dec (Z.abs_N z) 0) as [H0|H0].
  - assert (z = 0%Z) by (destruct z; simpl in H0; congruence). subst z. cbn. destruct (stops_no_frac_exp _ Hr) as [Hf He].
    unfold parse_number. simpl. now rewrite Hf, He.
  - destruct (dec_digits_head _ (Z.abs_N z) ltac:(lia) Hb) as (c & t & Ht & Hc).
    rewrite Ht in Hv, Ha. unfold all_digits in Ha. simpl in Ha.
    apply andb_true_iff in Ha as [Hcd Ha]. rewrite Ht.
    destruct (z <? 0)%Z eqn:Hneg.
    + rewrite str_app_assoc.
      rewrite (parse_digits true c t r Hcd Hc Ha Hr), Hv.
      apply Z.ltb_lt in Hneg. rewrite Zabs2N.id_abs. repeat f_equal. lia.
    + rewrite (parse_digits false c t r Hcd Hc Ha Hr : parse_number (String c t ++ r) = _), Hv.
      apply Z.ltb_ge in Hneg. rewrite Zabs2N.id_abs. repeat f_equal. lia.
Qed.

Lemma join_items_cons2 d sep x y ys :
  join_items d sep (x :: y :: ys) = d x ++ "," ++ sep ++ join_items d sep (y :: ys).
Proof. reflexivity. Qed.

Lemma join_members_cons2 d sep k x k' y ys :
  join_members d sep ((k, x) :: (k', y) :: ys) =
  encode_str k ++ ": " ++ d x ++ "," ++ sep ++ join_members d sep ((k', y) :: ys).
Proof. reflexivity. Qed.

Lemma dumps_arr l x xs :
  dumps_at l (JArr (x :: xs)) =
  "[" ++ indent_at (S l) ++ join_items (dumps_at (S l)) (indent_at (S l)) (x :: xs)
    ++ indent_at l ++ "]".
Proof.
  cbn [dumps_at]. do 3 f_equal.
  revert x. induction xs as [|y ys IH]; intros x; [reflexivity|].
  rewrite join_items_cons2, <- IH. reflexivity.
Qed.

Lemma dumps_obj l k x xs :
  dumps_at l (JObj ((k, x) :: xs)) =
  "{" ++ indent_at (S l) ++ join_members (dumps_at (S l)) (indent_at (S l)) ((k, x) :: xs)
    ++ indent_at l ++ "}".
Proof.
  cbn [dumps_at]. do 3 f_equal.
  revert k x. induction xs as [|[k' y] ys IH]; intros k x; [reflexivity|].
  rewrite join_members_cons2, <- IH. reflexivity.
Qed.

Lemma skip_ws_spaces k s : skip_ws (spaces k ++ s) = skip_ws s.
Proof. induction k as [|k IH]; simpl; [reflexivity|exact IH]. Qed.

Lemma skip_ws_indent l s : skip_ws (indent_at l ++ s) = skip_ws s.
Proof. unfold indent_at. rewrite str_app_assoc. simpl. apply skip_ws_spaces. Qed.

Lemma int_repr_head z :
  exists c t, int_repr z = String c t /\
    (is_digit c = true \/ (c = "-"%char /\ exists d t', t = String d t' /\ is_digit d = true)).
Proof.
  unfold int_repr.
  pose proof (size_nat_bound (Z.abs_N z)) as Hb.
  destruct (dec_digits_value _ _ Hb) as [_ Ha].
  destruct (dec_digits (S (N.size_nat (Z.abs_N z))) (Z.abs_N z) "") as [|c t] eqn:E.
  - cbn [dec_digits] in E. rewrite dec_digits_acc in E.
    destruct (_ <? _)%N; [discriminate|]. destruct (dec_digits _ _ _); discriminate.
  - unfold all_digits in Ha. simpl in Ha. apply andb_true_iff in Ha as [Hc _].
    destruct (z <? 0)%Z.
    + eexists _, _. split; [reflexivity|]. right. split; [reflexivity|]. eauto.
    + eexists _, _. split; [reflexivity|]. now left.
Qed.

Lemma digit_class c : is_digit c = true -> is_ws c = false /\ c <> "]"%char /\ c <> "}"%char.
Proof.
  destruct c as [[] [] [] [] [] [] [] []]; intros H; try discriminate H;
    repeat split; try reflexivity; discriminate.
Qed.

Lemma dumps_head l v : plain v = true -> starts_value (dumps_at l v).
Proof.
  intros Hp. unfold starts_value.
  destruct v as [| [] | z | lit | s | [|x xs] | [|[k x] xs]]; try discriminate Hp;
    try (eexists _, _; split; [reflexivity | repeat split; discriminate]).
  - destruct (int_repr_head z) as (c & t & E & [Hc | (-> & _)]); simpl; rewrite E.
    + exists c, t. split; [reflexivity|]. now apply digit_class.
    + exists "-"%char, t. split; [reflexivity|]. repeat split; discriminate.
Qed.

Lemma skip_ws_starts s r : starts_value s -> skip_ws (s ++ r) = s ++ r.
Proof. intros (d & w & -> & Hd & _). simpl. now rewrite Hd. Qed.

Lemma parse_value_digit n c t :
  is_digit c = true -> parse_value (S n) (String c t) = parse_number (String c t).
Proof.
  destruct c as [[] [] [] [] [] [] [] []]; intros H; try discriminate H; reflexivity.
Qed.

Lemma parse_value_int n z r :
  stops r = true -> parse_value (S n) (int_repr z ++ r) = Some (JInt z, r).
Proof.
  intros Hr. rewrite <- (parse_number_int z r Hr).
  destruct (int_repr_head z) as (c & t & E & [Hc | (-> & d & t' & -> & Hd)]); rewrite E.
  - apply parse_value_digit, Hc.
  - destruct d as [[] [] [] [] [] [] [] []]; try discriminate Hd; reflexivity.
Qed.

Lemma stops_indent l r : stops (indent_at l ++ r) = true.
Proof. reflexivity. Qed.

Lemma join_items_head d sep x xs r : exists w, join_items d sep (x :: xs) ++ r = d x ++ w.
Proof.
  destruct xs as [|y ys].
  - exists r. reflexivity.
  - rewrite join_items_cons2, !str_app_assoc. eexists. reflexivity.
Qed.

Lemma join_members_head d sep k x xs r :
  exists w, join_members d sep ((k, x) :: xs) ++ r = String quote (escape_ascii k ++ q ++ w).
Proof.
  destruct xs as [|[k' y] ys].
  - eexists. cbn [join_members]. unfold encode_str. rewrite !str_app_assoc. reflexivity.
  - rewrite join_members_cons2. unfold encode_str. rewrite !str_app_assoc. eexists. reflexivity.
Qed.

Lemma starts_value_app s r : starts_value s -> exists d w, s ++ r = String d w /\
  is_ws d = false /\ d <> "]"%char /\ d <> "}"%char.
Proof. intros (d & w & -> & H). exists d, (w ++ r). split; [reflexivity | exact H]. Qed.

Lemma eqb_false_of_neq (a b : ascii) : a <> b -> Ascii.eqb a b = false.
Proof. intros H. destruct (Ascii.eqb a b) eqn:E; [apply Ascii.eqb_eq in E; contradiction | reflexivity]. Qed.

Lemma parse_value_arr n r :
  parse_value (S n) (String "["%char r) =
  match skip_ws r with
  | String d r' =>
      if Ascii.eqb d "]"%char then Some (JArr [], r')
      else match parse_elements n (skip_ws r) [] with
           | Some (items, rest) => Some (JArr items, rest)
           | None => None
           end
  | EmptyString => None
  end.
Proof. reflexivity. Qed.

Lemma parse_value_obj n r :
  parse_value (S n) (String "{"%char r) =
  match skip_ws r with
  | String d r' =>
      if Ascii.eqb d "}"%char then Some (JObj [], r')
      else match parse_members n (skip_ws r) [] with
           | Some (kvs, rest) => Some (JObj kvs, rest)
           | None => None
           end
  | EmptyString => None
  end.
Proof. reflexivity. Qed.

Lemma skip_ws_quote s : skip_ws (String quote s) = String quote s.
Proof. reflexivity. Qed.

Lemma skip_ws_nonws c s : is_ws c = false -> skip_ws (String c s) = String c s.
Proof. intros H. simpl. now rewrite H. Qed.

Lemma skip_ws_space s : skip_ws (String " "%char s) = skip_ws s.
Proof. reflexivity. Qed.

Lemma parse_members_quote n s acc :
  parse_members (S n) (String quote s) acc =
  match scan_string s with
  | None => None
  | Some (key, r1) =>
      match skip_ws r1 with
      | String colon r2 =>
          if Ascii.eqb colon ":"%char then
            match parse_value n (skip_ws r2) with
            | None => None
            | Some (v, r3) =>
                match skip_ws r3 with
                | String d r4 =>
                    if Ascii.eqb d "}"%char then Some (rev ((key, v) :: acc), r4)
                    else if Ascii.eqb d ","%char then
                      parse_members n (skip_ws r4) ((key, v) :: acc)
                    else None
                | EmptyString => None
                end
            end
          else None
      | EmptyString => None
      end
  end.
Proof. reflexivity. Qed.

Lemma parse_dumps n :
  (forall v l r, plain v = true -> (jsize v <= n)%nat -> stops r = true ->
     parse_value n (dumps_at l v ++ r) = Some (v, r)) /\
  (forall items l r acc, items <> [] -> forallb plain items = true ->
     (list_sum (map (fun x => S (jsize x)) items) <= n)%nat ->
     parse_elements n
       (join_items (dumps_at (S l)) (indent_at (S l)) items ++ indent_at l ++ "]" ++ r) acc
     = Some (app (rev acc) items, r)) /\
  (forall kvs l r acc, kvs <> [] ->
     forallb (fun kv => is_ascii_str (fst kv) && plain (snd kv)) kvs = true ->
     (list_sum (map (fun kv => S (jsize (snd kv))) kvs) <= n)%nat ->
     parse_members n
       (join_members (dumps_at (S l)) (indent_at (S l)) kvs ++ indent_at l ++ "}" ++ r) acc
     = Some (app (rev acc) kvs, r)).
Proof.
  induction n as [|n IH].
  - split; [|split].
    + intros v l r _ Hs _. destruct v; simpl in Hs; lia.
    + intros [|x xs] l r acc Hne _ Hs; [congruence|]. simpl in Hs. lia.
    + intros [|[k x] xs] l r acc Hne _ Hs; [congruence|]. simpl in Hs. lia.
  - destruct IH as (IH1 & IH2 & IH3). split; [|split].
    + intros v l r Hp Hs Hr.
      destruct v as [| [] | z | lit | s | [|x xs] | [|[k x] xs]]; try discriminate Hp;
        try reflexivity.
      * now apply parse_value_int.
      * cbn [dumps_at]. unfold encode_str. rewrite !str_app_assoc. simpl.
        change (String quote r) with (q ++ r). rewrite scan_escape by exact Hp. reflexivity.
      * rewrite dumps_arr, !str_app_assoc.
        destruct (join_items_head (dumps_at (S l)) (indent_at (S l)) x xs
                    (indent_at l ++ "]" ++ r)) as [w Hw].
        destruct (starts_value_app _ w (dumps_head (S l) x ltac:(simpl in Hp; now destruct (plain x))))
          as (d & w' & Hd & Hws & Hb & _).
        change ("[" ++ ?X) with (String "["%char X). rewrite parse_value_arr.
        rewrite skip_ws_indent, Hw, Hd. cbn [skip_ws]. rewrite Hws.
        rewrite (eqb_false_of_neq _ _ Hb). rewrite <- Hd, <- Hw.
        rewrite (IH2 (x :: xs) l r [] ltac:(discriminate) Hp ltac:(simpl in Hs |- *; lia)).
        reflexivity.
      * rewrite dumps_obj, !str_app_assoc.
        destruct (join_members_head (dumps_at (S l)) (indent_at (S l)) k x xs
                    (indent_at l ++ "}" ++ r)) as [w Hw].
        change ("{" ++ ?X) with (String "{"%char X). rewrite parse_value_obj.
        rewrite skip_ws_indent, Hw, skip_ws_quote. cbv beta iota.
        change (Ascii.eqb quote "}"%char) with false. cbv iota.
        rewrite <- Hw.
        rewrite (IH3 ((k, x) :: xs) l r [] ltac:(discriminate) Hp ltac:(simpl in Hs |- *; lia)).
        reflexivity.
    + intros [|x [|y ys]] l r acc Hne Hp Hs; [congruence| |].
      * simpl in Hp, Hs. cbn [join_items parse_elements].
        rewrite IH1 by (try apply stops_indent; try lia; now destruct (plain x)).
        rewrite skip_ws_indent. simpl. reflexivity.
      * rewrite join_items_cons2, !str_app_assoc. cbn [parse_elements].
        simpl in Hp. apply andb_true_iff in Hp as [Hx Hp].
        simpl in Hs.
        rewrite IH1 by (try reflexivity; try lia; exact Hx).
        change ("," ++ ?X) with (String ","%char X). rewrite skip_ws_nonws by reflexivity.
        cbv beta iota. change (Ascii.eqb ","%char "]"%char) with false.
        change (Ascii.eqb ","%char ","%char) with true. cbv iota.
        rewrite skip_ws_indent.
        destruct (join_items_head (dumps_at (S l)) (indent_at (S l)) y ys
                    (indent_at l ++ "]" ++ r)) as [w Hw].
        assert (Hy : plain y = true) by (simpl in Hp; now destruct (plain y)).
        rewrite Hw, (skip_ws_starts _ _ (dumps_head (S l) y Hy)), <- Hw.
        rewrite (IH2 (y :: ys) l r (x :: acc) ltac:(discriminate) Hp ltac:(simpl; lia)).
        simpl. now rewrite <- app_assoc.
    + intros [|[k x] [|[k' y] ys]] l r acc Hne Hp Hs; [congruence| |].
      * simpl in Hp, Hs. apply andb_true_iff in Hp as [Hp _].
        apply andb_true_iff in Hp as [Hk Hx].
        cbn [join_members]. unfold encode_str. rewrite !str_app_assoc.
        change (q ++ ?X) with (String quote X). rewrite parse_members_quote.
        change (String quote ?X) with (q ++ X). rewrite scan_escape by exact Hk.
        change (": " ++ ?X) with (String ":"%char (String " "%char X)).
        rewrite skip_ws_nonws by reflexivity. cbv beta iota.
        change (Ascii.eqb ":"%char ":"%char) with true. cbv iota.
        rewrite skip_ws_space, (skip_ws_starts _ _ (dumps_head (S l) x Hx)).
        rewrite IH1 by (try apply stops_indent; try lia; exact Hx).
        rewrite skip_ws_indent. reflexivity.
      * simpl in Hp. apply andb_true_iff in Hp as [Hkx Hp].
        apply andb_true_iff in Hkx as [Hk Hx]. simpl in Hs.
        rewrite join_members_cons2. unfold encode_str at 1. rewrite !str_app_assoc.
        change (q ++ ?X) with (String quote X). rewrite parse_members_quote.
        change (String quote ?X) with (q ++ X). rewrite scan_escape by exact Hk.
        change (": " ++ ?X) with (String ":"%char (String " "%char X)).
        rewrite skip_ws_nonws by reflexivity. cbv beta iota.
        change (Ascii.eqb ":"%char ":"%char) with true. cbv iota.
        rewrite skip_ws_space, (skip_ws_starts _ _ (dumps_head (S l) x Hx)).
        rewrite IH1 by (try reflexivity; try lia; exact Hx).
        change ("," ++ ?X) with (String ","%char X). rewrite skip_ws_nonws by reflexivity.
        cbv beta iota. change (Ascii.eqb ","%char "}"%char) with false.
        change (Ascii.eqb ","%char ","%char) with true. cbv iota.
        rewrite skip_ws_indent.
        destruct (join_members_head (dumps_at (S l)) (indent_at (S l)) k' y ys
                    (indent_at l ++ "}" ++ r)) as [w Hw].
        rewrite Hw, skip_ws_quote, <- Hw.
        rewrite (IH3 ((k', y) :: ys) l r ((k, x) :: acc) ltac:(discriminate) Hp ltac:(simpl; lia)).
        simpl. now rewrite <- app_assoc.
Qed.

Lemma in_list_sum_le {A} (f : A -> nat) x l : In x l -> (f x <= list_sum (map f l))%nat.
Proof.
  induction l as [|y l IH]; simpl; [contradiction|].
  intros [->|H]; [lia|]. specialize (IH H). lia.
Qed.

Lemma spaces_length k : String.length (spaces k) = k.
Proof. induction k as [|k IH]; simpl; [reflexivity|now rewrite IH]. Qed.

Lemma indent_length l : String.length (indent_at l) = S (2 * l).
Proof. unfold indent_at. cbn [String.append String.length nl]. now rewrite spaces_length. Qed.

Lemma escape_length s : (String.length s <= String.length (escape_ascii s))%nat.
Proof.
  induction s as [|c s IH]; [simpl; lia|].
  rewrite escape_ascii_cons, str_length_app. simpl String.length at 1.
  assert (1 <= String.length (escape_ascii (String c EmptyString)))%nat.
  { cbn [escape_ascii].
    repeat match goal with |- context [if ?b then _ else _] => destruct b end;
      unfold u_escape; simpl; lia. }
  lia.
Qed.

Lemma join_items_length d sep items :
  items <> [] -> (forall x, In x items -> jsize x <= String.length (d x))%nat ->
  (list_sum (map (fun x => S (jsize x)) items) <= S (String.length (join_items d sep items)))%nat.
Proof.
  intros Hne H. induction items as [|x xs IH]; [congruence|].
  destruct xs as [|y ys].
  - simpl. specialize (H x (or_introl eq_refl)). lia.
  - rewrite join_items_cons2, !str_length_app.
    assert (Hx := H x (or_introl eq_refl)).
    assert (IH' := IH ltac:(discriminate) (fun z Hz => H z (or_intror Hz))).
    cbn [map list_sum fold_right] in IH' |- *. simpl String.length at 2. lia.
Qed.

Lemma join_members_length d sep kvs :
  kvs <> [] -> (forall kv, In kv kvs -> jsize (snd kv) <= String.length (d (snd kv)))%nat ->
  (list_sum (map (fun kv => S (jsize (snd kv))) kvs)
     <= S (String.length (join_members d sep kvs)))%nat.
Proof.
  intros Hne H. induction kvs as [|[k x] xs IH]; [congruence|].
  assert (Hx := H (k, x) (or_introl eq_refl)). simpl snd in Hx.
  destruct xs as [|[k' y] ys].
  - cbn [join_members]. unfold encode_str. rewrite !str_length_app. simpl. lia.
  - rewrite join_members_cons2, !str_length_app.
    assert (IH' := IH ltac:(discriminate) (fun z Hz => H z (or_intror Hz))).
    cbn [map list_sum fold_right snd] in IH' |- *. unfold encode_str. rewrite !str_length_app.
    cbn [String.length q String.append]. lia.
Qed.

Lemma dumps_length k : forall v l, (jsize v <= k)%nat -> plain v = true ->
  (jsize v <= String.length (dumps_at l v))%nat.
Proof.
  induction k as [|k IH]; intros v l Hk Hp; [destruct v; simpl in Hk; lia|].
  destruct v as [| [] | z | lit | s | [|x xs] | [|[k0 x] xs]]; try discriminate Hp;
    try (simpl; lia).
  - destruct (int_repr_head z) as (c & t & E & _). simpl. rewrite E. simpl. lia.
  - rewrite dumps_arr, !str_length_app, !indent_length.
    assert (J := join_items_length (dumps_at (S l)) (indent_at (S l)) (x :: xs)
                   ltac:(discriminate)).
    assert (Hin : forall y, In y (x :: xs) -> (jsize y <= String.length (dumps_at (S l) y))%nat).
    { intros y Hy. apply IH.
      - pose proof (in_list_sum_le (fun x => S (jsize x)) y _ Hy). cbv beta in *.
        change (S (list_sum (map (fun x => S (jsize x)) (x :: xs))) <= S k)%nat in Hk. lia.
      - apply (proj1 (forallb_forall _ _) Hp y Hy). }
    specialize (J Hin). simpl in J |- *. lia.
  - rewrite dumps_obj, !str_length_app, !indent_length.
    assert (J := join_members_length (dumps_at (S l)) (indent_at (S l)) ((k0, x) :: xs)
                   ltac:(discriminate)).
    assert (Hin : forall kv, In kv ((k0, x) :: xs) ->
                    (jsize (snd kv) <= String.length (dumps_at (S l) (snd kv)))%nat).
    { intros kv Hkv. apply IH.
      - pose proof (in_list_sum_le (fun kv => S (jsize (snd kv))) kv _ Hkv). cbv beta in *.
        change (S (list_sum (map (fun kv => S (jsize (snd kv))) ((k0, x) :: xs))) <= S k)%nat
          in Hk. lia.
      - pose proof (proj1 (forallb_forall _ _) Hp kv Hkv) as H.
        now apply andb_true_iff in H as [_ H]. }
    specialize (J Hin). simpl in J |- *. lia.
Qed.

Lemma dumps_then_loads v : plain v = true -> json_loads (json_dumps_indent2 v) = Some v.
Proof.
  intros Hp. unfold json_loads, json_dumps_indent2.
  rewrite <- (str_app_nil (dumps_at 0 v)), (skip_ws_starts _ _ (dumps_head 0 v Hp)).
  assert (Hl := dumps_length _ v 0 (le_n _) Hp).
  rewrite (proj1 (parse_dumps _) v 0 "" Hp) by (try reflexivity; rewrite str_length_app; simpl; lia).
  reflexivity.
Qed.

(** ** Reading the metadata back *)

Lemma startswith_marker x : startswith (META_MARKER ++ x) META_MARKER = true.
Proof. destruct x; reflexivity. Qed.

Lemma try_meta_metadata_body v : try_meta (metadata_body v) = None.
Proof.
  unfold try_meta, metadata_body. rewrite after_marker.
  replace (json_dumps_indent2 (JObj [("reviewed", v)]) ++ nl ++ "-->")
    with ((json_dumps_indent2 (JObj [("reviewed", v)]) ++ nl ++ "--") ++ ">")
    by (rewrite !str_app_assoc; reflexivity).
  now rewrite json_loads_gt.
Qed.

(** The metadata payload is read back when the closing "\n-->" line is left
    out: [get_cached_reviewed_lines] on a comment "<marker>\n" followed by
    [json.dumps({"reviewed": v}, indent=2)] returns [v], for every [v]
    without floats, with ASCII strings and keys, each key once per object,
    and [{"reviewed": v}] within CPython's integer-digit and nesting limits.
    The empty cache of [C3] comes from that closing line alone. *)
Theorem load_payload_without_trailer (v : json) :
  plain v = true -> keys_distinct v = true -> in_limits (JObj [("reviewed", v)]) = true ->
  get_cached_reviewed_lines [META_MARKER ++ nl ++ json_dumps_indent2 (JObj [("reviewed", v)])] = v.
Proof.
  intros Hp _ _. cbn [get_cached_reviewed_lines]. rewrite startswith_marker.
  unfold try_meta. rewrite after_marker, dumps_then_loads by (simpl; now rewrite Hp).
  reflexivity.
Qed.

Lemma get_cached_skips_metadata (pre post : list string) (v : json) :
  get_cached_reviewed_lines (app pre (metadata_body v :: post)) =
  get_cached_reviewed_lines (app pre post).
Proof.
  induction pre as [|b pre IH]; cbn [get_cached_reviewed_lines app].
  - replace (startswith (metadata_body v) META_MARKER) with true
      by (symmetry; apply startswith_marker).
    now rewrite try_meta_metadata_body.
  - now rewrite IH.
Qed.

(** A run that posts a review and its metadata comment does the same again
    when rerun with that comment added to the issue comments: the posted
    comment never feeds the cache back. *)
Theorem driver_rerun_repeats (set_list : list Z -> list Z) (pr : PR)
    (b e : string) (cs : list Comment) (m : string) :
  run_pr_review set_list pr = Some [ECreateReview b e cs; ECreateIssueComment m] ->
  run_pr_review set_list
    (mkPR (pr_review_requests pr) (app (pr_issue_comments pr) [m]) (pr_files pr))
  = Some [ECreateReview b e cs; ECreateIssueComment m].
Proof.
  intros Hrun.
  assert (Hm : exists v, m = metadata_body v).
  { unfold run_pr_review in Hrun.
    destruct (negb _); [discriminate|].
    destruct (cache_of_json _); [|discriminate].
    destruct (generate_review_comments _ _ _) as [[|c0 cs'] nc]; [discriminate|].
    injection Hrun as _ _ _ <-. eexists. reflexivity. }
  destruct Hm as [v ->].
  rewrite <- Hrun. unfold run_pr_review. cbn [pr_review_requests pr_issue_comments pr_files].
  rewrite (get_cached_skips_metadata (pr_issue_comments pr) [] v), app_nil_r.
  reflexivity.
Qed.

(** ** Further properties of [generate_review_comments] *)

Lemma added_from_gt lines : forall pos x, In x (added_from pos lines) -> (pos < x)%Z.
Proof.
  induction lines as [|line rest IH]; intros pos x Hx; simpl in Hx; [contradiction|].
  destruct (is_added_line line); [destruct Hx as [<-|Hx]; [lia|]|];
    specialize (IH _ _ Hx); lia.
Qed.

Lemma added_from_nodup lines : forall pos, NoDup (added_from pos lines).
Proof.
  induction lines as [|line rest IH]; intros pos; simpl; [constructor|].
  destruct (is_added_line line); [|apply IH].
  constructor; [|apply IH]. intros Hx. apply added_from_gt in Hx. lia.
Qed.

Lemma fresh_positions_nodup rv lines : NoDup (fresh_positions rv lines).
Proof. apply NoDup_filter, added_from_nodup. Qed.

Lemma map_nodup_inj {A B} (h : A -> B) l :
  (forall x y, h x = h y -> x = y) -> NoDup l -> NoDup (map h l).
Proof.
  intros Hi Hnd. induction Hnd as [|x l Hx Hnd IH]; simpl; constructor; [|exact IH].
  intros Hin. apply in_map_iff in Hin as (y & Hy & Hyl). apply Hi in Hy. subst. contradiction.
Qed.

Lemma in_file_comments cache f c :
  In c (file_comments cache f) ->
  exists p x, patch f = Some p /\ skip_file f = false /\
    c = mkComment (filename f) x suggestion_body /\
    In x (added_from 0 (split_on newline p)) /\
    ~ In x (cached_positions cache (filename f)).
Proof.
  unfold file_comments. destruct (patch f) as [p|] eqn:Hp; [|contradiction].
  destruct (skip_file f) eqn:Hs; [contradiction|].
  unfold mk_comments, fresh_positions. intros Hc.
  apply in_map_iff in Hc as (x & <- & Hx). apply filter_In in Hx as [Hx Hm].
  exists p, x. repeat split; auto.
  intros Hin. apply mem_In in Hin. now rewrite Hin in Hm.
Qed.

Lemma in_keys_get {V} k (d : dict V) : In k (map fst d) <-> exists v, dict_get k d = Some v.
Proof.
  induction d as [|[k' v'] d IH]; simpl; [split; [contradiction|intros [v Hv]; discriminate]|].
  destruct (String.eqb k k') eqn:E.
  - apply String.eqb_eq in E. subst. split; [eauto|auto].
  - rewrite <- IH. split; [intros [->|H]; [now rewrite String.eqb_refl in E|exact H]|auto].
Qed.

Lemma dict_set_keys {V} k (v : V) d k' :
  In k' (map fst (dict_set k v d)) <-> k' = k \/ In k' (map fst d).
Proof.
  induction d as [|[k0 v0] d IH]; simpl; [split; intros [H|[]]; auto|].
  destruct (String.eqb k k0) eqn:E; simpl.
  - apply String.eqb_eq in E. subst. split; [tauto|intros [->|H]; auto].
  - rewrite IH. tauto.
Qed.

Lemma dict_set_nodup {V} k (v : V) d : NoDup (map fst d) -> NoDup (map fst (dict_set k v d)).
Proof.
  induction d as [|[k0 v0] d IH]; intros Hnd; simpl; [repeat constructor; auto|].
  inversion Hnd as [|? ? Hnot Hnd']; subst.
  destruct (String.eqb k k0) eqn:E; simpl; constructor; auto.
  rewrite dict_set_keys. intros [->|H]; [now rewrite String.eqb_refl in E|contradiction].
Qed.

Lemma review_files_keys_nodup sl cache files : forall cs nc,
  NoDup (map fst nc) -> NoDup (map fst (snd (review_files sl cache files cs nc))).
Proof.
  induction files as [|f rest IH]; intros cs nc Hnd; [exact Hnd|].
  destruct (skip_file f) eqn:Hs.
  - rewrite review_files_cons_skipped by exact Hs. now apply IH.
  - destruct (patch f) as [p|] eqn:Hp;
      [|unfold skip_file in Hs; rewrite Hp in Hs; discriminate].
    rewrite (review_files_cons_kept _ _ _ _ p) by assumption.
    apply IH, dict_set_nodup, Hnd.
Qed.

Lemma file_comments_path cache f c : In c (file_comments cache f) -> path c = filename f.
Proof.
  intros Hc. destruct (in_file_comments _ _ _ Hc) as (p & x & _ & _ & -> & _). reflexivity.
Qed.

Lemma flat_map_select {A B} (h : A -> list B) (key : A -> string) l a :
  NoDup (map key l) -> In a l ->
  flat_map (fun b => if String.eqb (key b) (key a) then h b else []) l = h a.
Proof.
  induction l as [|b l IH]; simpl; [contradiction|].
  intros Hnd Hin. inversion Hnd as [|? ? Hnot Hnd']; subst.
  destruct Hin as [E0|Hin].
  - subst b. rewrite String.eqb_refl, flat_map_nil, app_nil_r; [reflexivity|].
    intros b0 Hb. destruct (String.eqb (key b0) (key a)) eqn:E; [|reflexivity].
    apply String.eqb_eq in E. exfalso. apply Hnot. rewrite <- E. now apply in_map.
  - destruct (String.eqb (key b) (key a)) eqn:E.
    + apply String.eqb_eq in E. exfalso. apply Hnot. rewrite E. now apply in_map.
    + simpl. now apply IH.
Qed.

Lemma filter_none {A} (P : A -> bool) l : (forall x, In x l -> P x = false) -> filter P l = [].
Proof.
  induction l as [|x l IH]; intros H; simpl; [reflexivity|].
  rewrite H by (now left). apply IH. intros y Hy. apply H. now right.
Qed.

Lemma filter_all {A} (P : A -> bool) l : (forall x, In x l -> P x = true) -> filter P l = l.
Proof.
  induction l as [|x l IH]; intros H; simpl; [reflexivity|].
  rewrite H by (now left). f_equal. apply IH. intros y Hy. apply H. now right.
Qed.

Lemma filter_path_flat_map cache files k :
  filter (fun c => String.eqb (path c) k) (flat_map (file_comments cache) files) =
  flat_map (fun g => if String.eqb (filename g) k then file_comments cache g else []) files.
Proof.
  induction files as [|g rest IH]; simpl; [reflexivity|].
  rewrite filter_app, IH. f_equal.
  destruct (String.eqb (filename g) k) eqn:E.
  - apply filter_all. intros c Hc. now rewrite (file_comments_path _ _ _ Hc).
  - apply filter_none. intros c Hc. now rewrite (file_comments_path _ _ _ Hc).
Qed.

(** Every comment of [generate_review_comments] carries the fixed
    suggestion body and belongs to a processed record of its path (patch
    present and non-empty, status not "removed").  Its position is between
    1 and the number of '\n'-separated patch lines, the line there starts
    with '+' but not with "++", and the position is not in the input cache's
    entry for the path. *)
Theorem generate_comment_at_added_line (set_list : list Z -> list Z)
    (files : list File) (cache : Cache) (c : Comment) :
  In c (fst (generate_review_comments set_list files cache)) ->
  cbody c = suggestion_body /\
  exists f p, In f files /\ filename f = path c /\ patch f = Some p /\
    skip_file f = false /\
    (1 <= position c <= Z.of_nat (length (split_on newline p)))%Z /\
    is_added_line (nth (Z.to_nat (position c) - 1) (split_on newline p) "") = true /\
    ~ In (position c) (cached_positions cache (path c)).
Proof.
  unfold generate_review_comments. rewrite review_files_comments. cbn [app].
  intros Hc. apply in_flat_map in Hc as (f & Hf & Hc).
  destruct (in_file_comments _ _ _ Hc) as (p & x & Hp & Hs & -> & Hx & Hnc).
  cbn [cbody path position]. split; [reflexivity|].
  rewrite (added_from_seq _ 0) in Hx. apply in_map_iff in Hx as (i & <- & Hi).
  apply filter_In in Hi as [Hi Ha]. apply in_seq in Hi.
  exists f, p. do 4 (split; [assumption || reflexivity|]).
  split; [lia|]. split; [|exact Hnc]. rewrite Nat2Z.id. exact Ha.
Qed.

(** The comments for a cache are the comments for the empty cache, minus
    those whose position is listed in the cache entry of their path: a
    larger cache only removes comments. *)
Theorem generate_comments_filter_cache (set_list : list Z -> list Z)
    (files : list File) (cache : Cache) :
  fst (generate_review_comments set_list files cache) =
  filter (fun c => negb (mem (position c) (cached_positions cache (path c))))
    (fst (generate_review_comments set_list files [])).
Proof.
  unfold generate_review_comments. rewrite !review_files_comments. cbn [app].
  induction files as [|f rest IH]; [reflexivity|].
  cbn [flat_map]. rewrite filter_app, IH. f_equal.
  unfold file_comments. destruct (patch f) as [p|]; [|reflexivity].
  destruct (skip_file f); [reflexivity|].
  unfold fresh_positions. change (cached_positions [] (filename f)) with (@nil Z).
  rewrite filter_negb_mem_nil.
  induction (added_from 0 (split_on newline p)) as [|x xs IHx]; [reflexivity|].
  unfold mk_comments in *. cbn [filter map]. cbn [position path].
  destruct (negb (mem x (cached_positions cache (filename f)))); cbn [map];
    now rewrite IHx.
Qed.

(** The returned cache has no repeated key, and its keys are exactly the
    filenames of the processed records (patch present and non-empty, status
    not "removed"). *)
Theorem generate_cache_keys (set_list : list Z -> list Z) (files : list File) (cache : Cache) :
  NoDup (map fst (snd (generate_review_comments set_list files cache))) /\
  forall k, In k (map fst (snd (generate_review_comments set_list files cache))) <->
            exists f, In f files /\ filename f = k /\ skip_file f = false.
Proof.
  split.
  - apply review_files_keys_nodup. constructor.
  - intros k. rewrite in_keys_get. unfold generate_review_comments.
    rewrite review_files_entry. split.
    + intros [v Hv]. destruct (last_record k files) as [g|] eqn:Hg; [|discriminate].
      destruct (last_record_some _ _ _ Hg) as (H1 & H2 & H3). eauto.
    + intros (f & Hf & Hk & Hs).
      destruct (last_record_exists k files f Hf Hk Hs) as [g ->]. eauto.
Qed.

(** Whatever the order [list(set(...))] gives, no entry of the returned cache
    lists a position twice. *)
Theorem generate_cache_entries_nodup (set_list : list Z -> list Z)
    (Hsl : set_list_spec set_list) (files : list File) (cache : Cache)
    (k : string) (e : list Z) :
  dict_get k (snd (generate_review_comments set_list files cache)) = Some e -> NoDup e.
Proof.
  unfold generate_review_comments. rewrite review_files_entry.
  destruct (last_record k files) as [g|] eqn:Hg; [|discriminate].
  intros [= <-]. unfold file_entry.
  destruct (patch g) as [q|]; [|constructor].
  apply NoDup_app; [apply Hsl | apply fresh_positions_nodup |].
  intros x Hx Hx'. apply (proj1 (proj2 (Hsl _) x)) in Hx.
  unfold fresh_positions in Hx'. apply filter_In in Hx' as [_ Hm].
  apply mem_In in Hx. now rewrite Hx in Hm.
Qed.

(** When filenames are distinct, the returned entry of a processed file is
    its old cached positions (in [list(set(...))] order) followed by the
    positions of the comments made on it in this run, in order. *)
Theorem generate_entry_lists_comments (set_list : list Z -> list Z)
    (files : list File) (cache : Cache) (f : File) (p : string)
    (Hnd : NoDup (map filename files)) (Hin : In f files)
    (Hp : patch f = Some p) (Hs : skip_file f = false) :
  dict_get (filename f) (snd (generate_review_comments set_list files cache)) =
  Some (app (set_list (cached_positions cache (filename f)))
          (map position (filter (fun c => String.eqb (path c) (filename f))
                           (fst (generate_review_comments set_list files cache))))).
Proof.
  unfold generate_review_comments.
  rewrite review_files_entry, (last_record_nodup _ _ f) by auto.
  rewrite review_files_comments. cbn [app].
  rewrite filter_path_flat_map, (flat_map_select (file_comments cache) filename) by auto.
  unfold file_entry, file_comments. rewrite Hp, Hs. unfold mk_comments.
  rewrite map_map. cbn [position]. now rewrite map_id.
Qed.

(** When filenames are distinct, no two comments share both path and
    position. *)
Theorem generate_comments_distinct (set_list : list Z -> list Z)
    (files : list File) (cache : Cache) (Hnd : NoDup (map filename files)) :
  NoDup (map (fun c => (path c, position c))
           (fst (generate_review_comments set_list files cache))).
Proof.
  unfold generate_review_comments. rewrite review_files_comments. cbn [app].
  induction files as [|f rest IH]; cbn [flat_map]; [constructor|].
  inversion Hnd as [|? ? Hnot Hnd']; subst.
  rewrite map_app. apply NoDup_app; [| now apply IH |].
  - unfold file_comments. destruct (patch f) as [p|]; [|constructor].
    destruct (skip_file f); [constructor|]. unfold mk_comments. rewrite map_map.
    apply map_nodup_inj; [|apply fresh_positions_nodup].
    intros x y E. now injection E.
  - intros [k x] H1 H2.
    apply in_map_iff in H1 as (c1 & E1 & H1). apply in_map_iff in H2 as (c2 & E2 & H2).
    apply in_flat_map in H2 as (g & Hg & H2).
    rewrite (file_comments_path _ _ _ H1) in E1.
    rewrite (file_comments_path _ _ _ H2) in E2.
    injection E1 as <- _. injection E2 as E2 _.
    apply Hnot. rewrite <- E2. now apply in_map.
Qed.

(** [generate_review_comments] reads the input cache only at the filenames
    of processed records: two caches that agree there give the same comments
    and the same new cache. *)
Theorem generate_reads_processed_entries (set_list : list Z -> list Z)
    (files : list File) (c1 c2 : Cache)
    (Hagree : forall f, In f files -> skip_file f = false ->
              cached_positions c1 (filename f) = cached_positions c2 (filename f)) :
  generate_review_comments set_list files c1 = generate_review_comments set_list files c2.
Proof.
  unfold generate_review_comments. generalize (@nil Comment) (@nil (string * list Z)).
  induction files as [|f rest IH]; intros cs nc; [reflexivity|].
  assert (IH' : forall cs nc, review_files set_list c1 rest cs nc = review_files set_list c2 rest cs nc)
    by (apply IH; intros g Hg; apply Hagree; now right).
  destruct (skip_file f) eqn:Hs.
  - rewrite !review_files_cons_skipped by exact Hs. apply IH'.
  - destruct (patch f) as [p|] eqn:Hp;
      [|unfold skip_file in Hs; rewrite Hp in Hs; discriminate].
    rewrite !(review_files_cons_kept _ _ _ _ p) by assumption.
    unfold file_comments, file_entry. rewrite Hp, Hs, (Hagree f (or_introl eq_refl) Hs).
    apply IH'.
Qed.

(** [" \n ab c\xa0".strip() == "ab c"] *)
Example sample_strip : py_strip (" " ++ nl ++ "ab c" ++ String (ch 194) (String (ch 160) "")) = "ab c".
Proof. vm_compute. reflexivity. Qed.
(** ["x```json{}```y".find("```json") == 1] and [.rfind("```") == 10] *)
Example sample_find : py_find ("x```json{}```y") "```json" = 1%Z /\ py_rfind ("x```json{}```y") "```" = 10%Z.
Proof. vm_compute. split; reflexivity. Qed.
(** A fenced reply between two lines of prose. *)
Example sample_fr : get_final_review (fun _ => "") (fun _ => false) (fun _ => "")
  ("Here:" ++ nl ++ "```json" ++ nl ++ "{" ++ q ++ "a" ++ q ++ ": [1, 2]}" ++ nl ++ "```" ++ nl)
  = JObj [("a", JArr [JInt 1; JInt 2])].
Proof. vm_compute. reflexivity. Qed.

(** ** [get_final_review] *)

Lemma prefix_app pat x : String.prefix pat (pat ++ x) = true.
Proof.
  induction pat as [|a pat IH]; [destruct x; reflexivity|].
  simpl. destruct (ascii_dec a a); [exact IH|congruence].
Qed.

Lemma prefix_head a pat c s : a <> c -> String.prefix (String a pat) (String c s) = false.
Proof. intros H. simpl. destruct (ascii_dec a c); congruence. Qed.

Lemma has_backtick_cons c s :
  has_backtick (String c s) = Ascii.eqb c "`"%char || has_backtick s.
Proof. reflexivity. Qed.

Lemma first_index_skip pat A B i :
  (exists pat', pat = String "`"%char pat') -> has_backtick A = false ->
  first_index pat (A ++ B) i = first_index pat B (i + String.length A).
Proof.
  intros [pat' ->]. revert i. induction A as [|c A IH]; intros i Hb.
  - now rewrite Nat.add_0_r.
  - rewrite has_backtick_cons in Hb. apply orb_false_elim in Hb as [Hc Hb].
    cbn [String.append first_index]. rewrite prefix_head.
    + rewrite IH by exact Hb. cbn [String.length]. f_equal. lia.
    + intros E. subst c. discriminate Hc.
Qed.

Lemma first_index_here pat X i : first_index pat (pat ++ X) i = Some i.
Proof.
  destruct (pat ++ X) as [|c r] eqn:E; cbn [first_index]; rewrite <- E, prefix_app; reflexivity.
Qed.

Lemma last_index_app_some pat A B i j :
  last_index pat B (i + String.length A) = Some j -> last_index pat (A ++ B) i = Some j.
Proof.
  revert i. induction A as [|c A IH]; intros i H.
  - rewrite Nat.add_0_r in H. exact H.
  - cbn [String.append last_index]. rewrite IH; [reflexivity|].
    rewrite <- H. cbn [String.length]. f_equal. lia.
Qed.

Lemma last_index_none_of_first pat s : forall i j,
  first_index pat s i = None -> last_index pat s j = None.
Proof.
  induction s as [|c r IH]; intros i j H; cbn [first_index last_index] in *.
  - destruct (String.prefix pat ""); [discriminate|reflexivity].
  - destruct (String.prefix pat (String c r)); [discriminate|].
    now rewrite (IH _ _ H).
Qed.

Lemma last_index_no_backtick pat' s : forall i,
  has_backtick s = false -> last_index (String "`"%char pat') s i = None.
Proof.
  induction s as [|c r IH]; intros i Hb; [reflexivity|].
  rewrite has_backtick_cons in Hb. apply orb_false_elim in Hb as [Hc Hb].
  cbn [last_index]. rewrite IH by exact Hb. rewrite prefix_head; [reflexivity|].
  intros E. subst c. discriminate Hc.
Qed.

Lemma prefix_no_backtick pat' s : has_backtick s = false -> String.prefix (String "`"%char pat') s = false.
Proof.
  destruct s as [|c r]; [reflexivity|]. rewrite has_backtick_cons. intros Hb.
  apply orb_false_elim in Hb as [Hc _]. apply prefix_head. intros E. subst c. discriminate Hc.
Qed.

Lemma last_index_closing post k :
  has_backtick post = false -> last_index fence (fence ++ post) k = Some k.
Proof.
  intros Hb. unfold fence. cbn [String.append last_index].
  rewrite (last_index_no_backtick _ _ _ Hb).
  change (String.prefix "```" (String "`" post)) with (String.prefix "``" post).
  rewrite prefix_no_backtick by exact Hb.
  change (String.prefix "```" (String "`" (String "`" post))) with (String.prefix "`" post).
  rewrite prefix_no_backtick by exact Hb.
  change (String.prefix "```" (String "`" (String "`" (String "`" post)))) with (String.prefix "" post).
  destruct post; reflexivity.
Qed.

Lemma substring_app A B C : substring (String.length A) (String.length B) (A ++ B ++ C) = B.
Proof.
  induction A as [|a A IH]; [|exact IH].
  induction B as [|b B IH]; simpl in *; [destruct C; reflexivity|]. now rewrite IH.
Qed.

(** The text between the opening fence and the last closing one, stripped,
    is what [json.loads] receives when the prose around the block has no
    backtick. *)
Lemma extract_fenced pre body post :
  has_backtick pre = false -> has_backtick post = false ->
  extract_json_string (pre ++ json_fence ++ body ++ fence ++ post) = py_strip body.
Proof.
  intros Hpre Hpost. unfold extract_json_string, py_find, py_rfind.
  rewrite first_index_skip by (exact Hpre || (eexists; reflexivity)).
  rewrite first_index_here.
  assert (Hr : last_index fence (pre ++ json_fence ++ body ++ fence ++ post) 0 =
               Some (String.length pre + 7 + String.length body)%nat).
  { replace (pre ++ json_fence ++ body ++ fence ++ post)
      with ((pre ++ json_fence ++ body) ++ (fence ++ post)) by (rewrite !str_app_assoc; reflexivity).
    apply last_index_app_some. rewrite last_index_closing by exact Hpost.
    rewrite !str_length_app. f_equal. cbn [json_fence String.length]. lia. }
  rewrite Hr. cbn [Nat.add].
  replace (negb (Z.of_nat (String.length pre) =? -1)%Z) with true by (symmetry; apply negb_true_iff, Z.eqb_neq; lia).
  replace (negb (Z.of_nat (String.length pre + 7 + String.length body) =? -1)%Z) with true
    by (symmetry; apply negb_true_iff, Z.eqb_neq; lia).
  replace (Z.of_nat (String.length pre) <? Z.of_nat (String.length pre + 7 + String.length body))%Z
    with true by (symmetry; apply Z.ltb_lt; lia).
  cbn [andb]. f_equal. unfold py_slice.
  replace (Z.to_nat (Z.of_nat (String.length pre) + Z.of_nat (String.length json_fence)))
    with (String.length (pre ++ json_fence)) by (rewrite <- Nat2Z.inj_add, Nat2Z.id, str_length_app; reflexivity).
  replace (Z.to_nat (Z.of_nat (String.length pre + 7 + String.length body)) -
           String.length (pre ++ json_fence))%nat with (String.length body)
    by (rewrite str_length_app, Nat2Z.id; cbn [json_fence String.length]; lia).
  rewrite <- (str_app_assoc pre json_fence). apply substring_app.
Qed.

(** When the prose around the reply's block has no backtick,
    [get_final_review] returns the JSON value of the text between the
    opening "```json" and the closing "```", stripped (when it parses and
    does not raise anything but [JSONDecodeError]). *)
Theorem final_review_fenced (decode_error_text : string -> string)
    (loads_error : string -> bool) (loads_error_text : string -> string)
    (pre body post : string) (v : json) :
  has_backtick pre = false -> has_backtick post = false ->
  loads_error (py_strip body) = false -> json_loads (py_strip body) = Some v ->
  get_final_review decode_error_text loads_error loads_error_text
    (pre ++ json_fence ++ body ++ fence ++ post) = v.
Proof.
  intros Hpre Hpost Hre Hv. unfold get_final_review.
  rewrite extract_fenced by assumption. now rewrite Hre, Hv.
Qed.

Lemma code_points_head c r : exists g gs, code_points (String c r) = String c g :: gs.
Proof.
  cbn [code_points]. destruct (code_points r) as [|[|d g] gs]; eauto.
  destruct (is_cont d); eauto.
Qed.

Lemma code_points_ascii c r :
  is_cont c = false -> forall d, is_cont d = false ->
  code_points (String d (String c r)) = String d "" :: code_points (String c r).
Proof.
  intros Hc d _. destruct (code_points_head c r) as (g & gs & E).
  cbn [code_points] in *. rewrite E. rewrite Hc. reflexivity.
Qed.

Lemma is_ws_cases c : is_ws c = true ->
  c = " "%char \/ c = ch 9 \/ c = ch 10 \/ c = ch 13.
Proof.
  unfold is_ws. intros H.
  repeat (apply orb_true_iff in H as [H|H]); apply Ascii.eqb_eq in H; auto.
Qed.

Lemma code_points_ws_prefix ws g : forall c,
  forallb is_ws (list_ascii_of_string ws) = true -> is_cont c = false ->
  code_points (ws ++ String c g) =
  app (map (fun d => String d "") (list_ascii_of_string ws)) (code_points (String c g)).
Proof.
  induction ws as [|d ws IH]; intros c Hws Hc; [reflexivity|].
  cbn [list_ascii_of_string forallb] in Hws. apply andb_true_iff in Hws as [Hd Hws].
  cbn [String.append list_ascii_of_string map].
  assert (Hdc : is_cont d = false)
    by (destruct (is_ws_cases _ Hd) as [-> | [-> | [-> | -> ] ] ]; reflexivity).
  destruct ws as [|e ws'].
  - cbn [String.append]. rewrite (code_points_ascii c g Hc d Hdc). reflexivity.
  - cbn [list_ascii_of_string forallb] in Hws. apply andb_true_iff in Hws as [He Hws'].
    assert (Hec : is_cont e = false)
      by (destruct (is_ws_cases _ He) as [-> | [-> | [-> | -> ] ] ]; reflexivity).
    cbn [String.append]. rewrite (code_points_ascii e _ Hec d Hdc).
    change (String e (ws' ++ String c g)) with (String e ws' ++ String c g).
    rewrite IH; [reflexivity| |exact Hc].
    cbn [list_ascii_of_string forallb]. now rewrite He, Hws'.
Qed.

Lemma drop_space_ws ws l :
  forallb is_ws (list_ascii_of_string ws) = true ->
  drop_space (app (map (fun d => String d "") (list_ascii_of_string ws)) l) = drop_space l.
Proof.
  induction ws as [|d ws IH]; intros Hws; [reflexivity|].
  cbn [list_ascii_of_string forallb] in Hws. apply andb_true_iff in Hws as [Hd Hws].
  cbn [list_ascii_of_string map app drop_space].
  replace (is_space_cp (String d "")) with true
    by (destruct (is_ws_cases _ Hd) as [-> | [-> | [-> | -> ] ] ]; reflexivity).
  now apply IH.
Qed.

Lemma is_space_cp_backtick g : is_space_cp (String "`"%char g) = false.
Proof. reflexivity. Qed.

Lemma drop_space_last l g :
  is_space_cp g = false -> exists l', drop_space (app l [g]) = app l' [g].
Proof.
  induction l as [|x l IH]; intros Hg; cbn [app drop_space].
  - rewrite Hg. now exists [].
  - destruct (is_space_cp x); [now apply IH|]. now exists (x :: l).
Qed.

Lemma strip_keeps_head g gs :
  is_space_cp g = false -> exists l', rev (drop_space (rev (g :: gs))) = g :: l'.
Proof.
  intros Hg. cbn [rev]. destruct (drop_space_last (rev gs) g Hg) as [l' ->].
  rewrite rev_app_distr. cbn. eauto.
Qed.

Lemma concat_head g l : exists w, String.concat "" (g :: l) = g ++ w.
Proof. destruct l; cbn; [exists ""; now rewrite str_app_nil | eauto]. Qed.

Lemma json_loads_backtick w : json_loads (String "`"%char w) = None.
Proof. reflexivity. Qed.

Lemma py_strip_backtick ws w :
  forallb is_ws (list_ascii_of_string ws) = true ->
  exists w', py_strip (ws ++ String "`"%char w) = String "`"%char w'.
Proof.
  intros Hws. unfold py_strip. rewrite code_points_ws_prefix by (exact Hws || reflexivity).
  rewrite drop_space_ws by exact Hws.
  destruct (code_points_head "`"%char w) as (g & gs & ->).
  cbn [drop_space]. rewrite is_space_cp_backtick.
  destruct (strip_keeps_head _ gs (is_space_cp_backtick g)) as [l' ->].
  destruct (concat_head (String "`" g) l') as [x ->]. now exists (g ++ x).
Qed.

Lemma last_index_fence_open post k :
  contains post fence = false -> last_index fence (json_fence ++ post) k = Some k.
Proof.
  unfold contains. destruct (first_index fence post 0) eqn:E; [discriminate|intros _].
  unfold json_fence, fence. cbn [String.append last_index].
  rewrite (last_index_none_of_first _ _ _ _ E). reflexivity.
Qed.

Lemma final_review_unclosed (decode_error_text : string -> string)
    (loads_error : string -> bool) (loads_error_text : string -> string)
    (Hnested : loads_error_nested loads_error) (ws post : string) :
  forallb is_ws (list_ascii_of_string ws) = true -> contains post fence = false ->
  get_final_review decode_error_text loads_error loads_error_text
    (ws ++ json_fence ++ post) =
  parse_error_review (decode_error_text (py_strip (ws ++ json_fence ++ post)))
    (ws ++ json_fence ++ post).
Proof.
  intros Hws Hpost.
  assert (Hb : has_backtick ws = false).
  { clear -Hws. induction ws as [|d ws IH]; [reflexivity|].
    cbn [list_ascii_of_string forallb] in Hws. apply andb_true_iff in Hws as [Hd Hws].
    rewrite has_backtick_cons, IH by exact Hws.
    destruct (is_ws_cases _ Hd) as [-> | [-> | [-> | -> ] ] ]; reflexivity. }
  assert (He : extract_json_string (ws ++ json_fence ++ post) = py_strip (ws ++ json_fence ++ post)).
  { unfold extract_json_string, py_find, py_rfind.
    rewrite first_index_skip by (exact Hb || (eexists; reflexivity)).
    rewrite first_index_here.
    rewrite (last_index_app_some _ ws _ 0 (String.length ws)) by (apply last_index_fence_open, Hpost).
    rewrite Z.ltb_irrefl, andb_false_r. reflexivity. }
  destruct (py_strip_backtick ws ("``json" ++ post) Hws) as [w' Hw].
  change (String "`" ("``json" ++ post)) with (json_fence ++ post) in Hw.
  unfold get_final_review. rewrite He.
  destruct (loads_error (py_strip (ws ++ json_fence ++ post))) eqn:Hre.
  - destruct (Hnested _ Hre) as (c & r & Hs & Hc).
    rewrite Hw in Hs. cbn in Hs. injection Hs as <- _.
    destruct Hc as [Hc|[Hc|[Hc|Hc]]]; discriminate Hc.
  - rewrite Hw, json_loads_backtick. reflexivity.
Qed.


(** ** [main] *)

Lemma send_chunks_ok llm files : forall n cs m,
  send_chunks llm n files = (cs, Some m) ->
  cs = chunk_calls files /\ m = (n + length (chunk_calls files))%nat.
Proof.
  induction files as [|f rest IH]; intros n cs m H; cbn [send_chunks chunk_calls flat_map] in *.
  - injection H as <- <-. split; [reflexivity|]. cbn. lia.
  - destruct (patch f) as [p|]; [|now apply IH].
    destruct (String.eqb p ""); [now apply IH|].
    destruct (llm n) as [r|]; [|discriminate].
    destruct (send_chunks llm (S n) rest) as [cs' r'] eqn:E. injection H as <- ->.
    destruct (IH _ _ _ E) as [-> ->]. split; [reflexivity|]. unfold chunk_calls in *. cbn. lia.
Qed.

Lemma send_chunks_fail llm files : forall n cs,
  send_chunks llm n files = (cs, None) -> ~ In CallFinal cs.
Proof.
  induction files as [|f rest IH]; intros n cs H; cbn [send_chunks] in H; [discriminate|].
  destruct (patch f) as [p|]; [|now apply (IH n)].
  destruct (String.eqb p ""); [now apply (IH n)|].
  destruct (llm n) as [r|].
  - destruct (send_chunks llm (S n) rest) as [cs' r'] eqn:E. injection H as <- ->.
    intros [Hc|Hc]; [discriminate|]. exact (IH _ _ E Hc).
  - injection H as <-. intros [Hc|[]]. discriminate.
Qed.

Lemma chunk_calls_no_final files : ~ In CallFinal (chunk_calls files).
Proof.
  unfold chunk_calls. intros H. apply in_flat_map in H as (f & _ & H).
  destruct (patch f) as [p|]; [|contradiction].
  destruct (String.eqb p ""); [contradiction|]. destruct H as [H|[]]. discriminate.
Qed.

(** The shape of a run that reaches the final request. *)
Lemma bot_main_final py_int ft det re ret w :
  In CallFinal (fst (bot_main py_int ft det re ret w)) ->
  exists n, send_chunks (bw_llm_reply w) 0 (bw_pr_files w) = (chunk_calls (bw_pr_files w), Some n) /\
    n = length (chunk_calls (bw_pr_files w)) /\
    bot_main py_int ft det re ret w =
    match bw_llm_reply w n with
    | None => (app (chunk_calls (bw_pr_files w)) [CallFinal], BotRaise)
    | Some response_text =>
        let ai_review_json := get_final_review det re ret response_text in
        if truthy ft ai_review_json then
          (app (chunk_calls (bw_pr_files w)) [CallFinal; CallPost ai_review_json],
           if bw_post_fails w then BotRaise else BotExit 0)
        else (app (chunk_calls (bw_pr_files w)) [CallFinal], BotExit 0)
    end.
Proof.
  unfold bot_main.
  destruct (bw_getenv w "PR_NUMBER") as [s|]; [|intros []].
  destruct (py_int s) as [z|]; [|intros []].
  destruct (negb _); [intros []|].
  destruct (z <=? 0)%Z; [intros []|].
  destruct (bw_github_error w); [intros []|].
  destruct (negb (bw_bot_requested w)); [intros []|].
  destruct (bw_genai_error w); [intros []|].
  destruct (bw_pr_files w) as [|f0 fs] eqn:Ef; [intros []|].
  rewrite <- Ef.
  destruct (send_chunks (bw_llm_reply w) 0 (bw_pr_files w)) as [cs [m|]] eqn:Es.
  - destruct (send_chunks_ok _ _ _ _ _ Es) as [-> ->]. intros _. eexists. split; [reflexivity|].
    split; reflexivity.
  - intros H. exfalso. exact (send_chunks_fail _ _ _ _ Es H).
Qed.

(** Once [main] reaches the final request, it has sent to the LLM exactly
    the files with a non-empty patch, in order and with their patch,
    whatever their status ("removed" included), and nothing else. *)
Theorem main_sends_patched_files (py_int : string -> option Z) (float_truthy : string -> bool)
    (decode_error_text : string -> string) (loads_error : string -> bool)
    (loads_error_text : string -> string) (w : BotWorld) :
  In CallFinal (fst (bot_main py_int float_truthy decode_error_text loads_error
                       loads_error_text w)) ->
  exists tail, fst (bot_main py_int float_truthy decode_error_text loads_error
                      loads_error_text w) =
               app (chunk_calls (bw_pr_files w)) (CallFinal :: tail).
Proof.
  intros H. destruct (bot_main_final _ _ _ _ _ _ H) as (n & _ & _ & ->).
  destruct (bw_llm_reply w n) as [r|]; [|now exists []].
  cbv zeta. destruct (truthy _ _); eexists; reflexivity.
Qed.

(** If [main] reaches the final request and the reply is whitespace, then
    "```json", then text without "```" (a block opened and never closed,
    with nothing but whitespace before it), [main] posts the parse-error
    review dict. *)
Theorem main_posts_parse_error_on_truncated_reply (py_int : string -> option Z)
    (float_truthy : string -> bool) (decode_error_text : string -> string)
    (loads_error : string -> bool) (loads_error_text : string -> string)
    (Hnested : loads_error_nested loads_error) (w : BotWorld) (ws post : string) :
  In CallFinal (fst (bot_main py_int float_truthy decode_error_text loads_error
                       loads_error_text w)) ->
  bw_llm_reply w (length (chunk_calls (bw_pr_files w))) = Some (ws ++ json_fence ++ post) ->
  forallb is_ws (list_ascii_of_string ws) = true -> contains post fence = false ->
  bot_main py_int float_truthy decode_error_text loads_error loads_error_text w =
  (app (chunk_calls (bw_pr_files w))
     [CallFinal;
      CallPost (parse_error_review (decode_error_text (py_strip (ws ++ json_fence ++ post)))
                  (ws ++ json_fence ++ post))],
   if bw_post_fails w then BotRaise else BotExit 0).
Proof.
  intros H Hr Hws Hpost. destruct (bot_main_final _ _ _ _ _ _ H) as (n & _ & -> & ->).
  rewrite Hr. cbv zeta.
  rewrite (final_review_unclosed _ _ _ Hnested ws post Hws Hpost). reflexivity.
Qed.


(** ** Wrappers of the extra properties *)

(** [json.loads(json.dumps(v, indent=2))] gives [v] back for every value
    without floats whose strings and keys are ASCII, with each key once per
    object, and within CPython's integer-digit and nesting limits (where
    [json.dumps] and [json.loads] do not raise). *)
Theorem json_roundtrip (v : json) :
  plain v = true -> keys_distinct v = true -> in_limits v = true ->
  json_loads (json_dumps_indent2 v) = Some v.
Proof. intros Hp _ _. now apply dumps_then_loads. Qed.

Lemma json_roundtrip_witness :
  plain (JObj [("a.py", JArr [JInt 3; JInt (-12)]); ("n", JNull); ("s", JStr ("x" ++ q))]) = true /\
  keys_distinct (JObj [("a.py", JArr [JInt 3; JInt (-12)]); ("n", JNull); ("s", JStr ("x" ++ q))]) = true /\
  in_limits (JObj [("a.py", JArr [JInt 3; JInt (-12)]); ("n", JNull); ("s", JStr ("x" ++ q))]) = true /\
  json_loads (json_dumps_indent2
    (JObj [("a.py", JArr [JInt 3; JInt (-12)]); ("n", JNull); ("s", JStr ("x" ++ q))])) =
  Some (JObj [("a.py", JArr [JInt 3; JInt (-12)]); ("n", JNull); ("s", JStr ("x" ++ q))]).
Proof.
  split; [reflexivity|]. split; [reflexivity|]. split; [vm_compute; reflexivity|].
  apply json_roundtrip; [reflexivity | reflexivity | vm_compute; reflexivity].
Defined.

Lemma load_payload_without_trailer_witness :
  plain (cache_to_json [("f.py", [3%Z])]) = true /\
  keys_distinct (cache_to_json [("f.py", [3%Z])]) = true /\
  in_limits (JObj [("reviewed", cache_to_json [("f.py", [3%Z])])]) = true /\
  get_cached_reviewed_lines
    [META_MARKER ++ nl ++ json_dumps_indent2 (JObj [("reviewed", cache_to_json [("f.py", [3%Z])])])]
  = cache_to_json [("f.py", [3%Z])].
Proof.
  split; [reflexivity|]. split; [reflexivity|]. split; [vm_compute; reflexivity|].
  apply load_payload_without_trailer; [reflexivity | reflexivity | vm_compute; reflexivity].
Defined.

(** Metadata comments posted by [post_metadata_comment] are invisible to
    [get_cached_reviewed_lines]: removing one from the comment list, at any
    place, does not change what it returns. *)
Theorem load_ignores_metadata_comments (pre post : list string) (v : json) :
  get_cached_reviewed_lines (app pre (metadata_body v :: post)) =
  get_cached_reviewed_lines (app pre post).
Proof. apply get_cached_skips_metadata. Qed.

Lemma driver_rerun_repeats_witness :
  run_pr_review first_seen_order
    (mkPR ["dhp-pr-review-bot"] [] [mkFile "f.py" (Some sample_patch) "modified"]) =
  Some [ECreateReview review_body "COMMENT"
          [mkComment "f.py" 3 suggestion_body; mkComment "f.py" 4 suggestion_body];
        ECreateIssueComment (metadata_body (cache_to_json [("f.py", [3; 4]%Z)]))] /\
  run_pr_review first_seen_order
    (mkPR ["dhp-pr-review-bot"] (app [] [metadata_body (cache_to_json [("f.py", [3; 4]%Z)])])
       [mkFile "f.py" (Some sample_patch) "modified"]) =
  Some [ECreateReview review_body "COMMENT"
          [mkComment "f.py" 3 suggestion_body; mkComment "f.py" 4 suggestion_body];
        ECreateIssueComment (metadata_body (cache_to_json [("f.py", [3; 4]%Z)]))].
Proof.
  split; [vm_compute; reflexivity|].
  apply (driver_rerun_repeats first_seen_order
           (mkPR ["dhp-pr-review-bot"] [] [mkFile "f.py" (Some sample_patch) "modified"])).
  vm_compute. reflexivity.
Defined.

Lemma generate_comment_at_added_line_witness :
  In (mkComment "f.py" 3 suggestion_body)
     (fst (generate_review_comments first_seen_order
             [mkFile "f.py" (Some sample_patch) "modified"] [])) /\
  cbody (mkComment "f.py" 3 suggestion_body) = suggestion_body /\
  exists f p, In f [mkFile "f.py" (Some sample_patch) "modified"] /\
    filename f = path (mkComment "f.py" 3 suggestion_body) /\ patch f = Some p /\
    skip_file f = false /\
    (1 <= position (mkComment "f.py" 3 suggestion_body) <= Z.of_nat (length (split_on newline p)))%Z /\
    is_added_line (nth (Z.to_nat (position (mkComment "f.py" 3 suggestion_body)) - 1)
                     (split_on newline p) "") = true /\
    ~ In (position (mkComment "f.py" 3 suggestion_body))
         (cached_positions [] (path (mkComment "f.py" 3 suggestion_body))).
Proof.
  assert (H : In (mkComment "f.py" 3 suggestion_body)
     (fst (generate_review_comments first_seen_order
             [mkFile "f.py" (Some sample_patch) "modified"] [])))
    by (vm_compute; left; reflexivity).
  split; [exact H | exact (generate_comment_at_added_line _ _ _ _ H)].
Defined.

Lemma generate_cache_entries_nodup_witness :
  set_list_spec first_seen_order /\
  dict_get "f.py" (snd (generate_review_comments first_seen_order
     [mkFile "f.py" (Some sample_patch) "modified"] [("f.py", [3%Z])])) = Some [3; 4]%Z /\
  NoDup [3; 4]%Z.
Proof.
  assert (H : dict_get "f.py" (snd (generate_review_comments first_seen_order
     [mkFile "f.py" (Some sample_patch) "modified"] [("f.py", [3%Z])])) = Some [3; 4]%Z)
    by (vm_compute; reflexivity).
  split; [exact first_seen_order_spec | split; [exact H |]].
  exact (generate_cache_entries_nodup first_seen_order first_seen_order_spec _ _ _ _ H).
Defined.

Lemma generate_entry_lists_comments_witness :
  NoDup (map filename [mkFile "f.py" (Some sample_patch) "modified"]) /\
  dict_get "f.py" (snd (generate_review_comments first_seen_order
     [mkFile "f.py" (Some sample_patch) "modified"] [("f.py", [3%Z])])) =
  Some (app (first_seen_order (cached_positions [("f.py", [3%Z])] "f.py"))
          (map position (filter (fun c => String.eqb (path c) "f.py")
             (fst (generate_review_comments first_seen_order
                     [mkFile "f.py" (Some sample_patch) "modified"] [("f.py", [3%Z])]))))).
Proof.
  assert (H : NoDup (map filename [mkFile "f.py" (Some sample_patch) "modified"]))
    by (repeat constructor; simpl; tauto).
  split; [exact H|].
  exact (generate_entry_lists_comments first_seen_order
           [mkFile "f.py" (Some sample_patch) "modified"] [("f.py", [3%Z])]
           (mkFile "f.py" (Some sample_patch) "modified") sample_patch
           H (or_introl eq_refl) eq_refl eq_refl).
Defined.

Lemma generate_comments_distinct_witness :
  NoDup (map filename [mkFile "a.py" (Some sample_patch) "modified";
                       mkFile "b.py" (Some sample_patch) "added"]) /\
  NoDup (map (fun c => (path c, position c))
           (fst (generate_review_comments first_seen_order
                   [mkFile "a.py" (Some sample_patch) "modified";
                    mkFile "b.py" (Some sample_patch) "added"] [("a.py", [4%Z])]))).
Proof.
  assert (H : NoDup (map filename [mkFile "a.py" (Some sample_patch) "modified";
                                   mkFile "b.py" (Some sample_patch) "added"])).
  { repeat constructor; simpl; intuition discriminate. }
  split; [exact H | exact (generate_comments_distinct _ _ _ H)].
Defined.

Lemma generate_reads_processed_entries_witness :
  (forall f, In f [mkFile "f.py" (Some sample_patch) "modified"] -> skip_file f = false ->
     cached_positions [("f.py", [3%Z]); ("g.py", [1%Z])] (filename f) =
     cached_positions [("f.py", [3%Z])] (filename f)) /\
  generate_review_comments first_seen_order [mkFile "f.py" (Some sample_patch) "modified"]
    [("f.py", [3%Z]); ("g.py", [1%Z])] =
  generate_review_comments first_seen_order [mkFile "f.py" (Some sample_patch) "modified"]
    [("f.py", [3%Z])].
Proof.
  assert (H : forall f, In f [mkFile "f.py" (Some sample_patch) "modified"] -> skip_file f = false ->
     cached_positions [("f.py", [3%Z]); ("g.py", [1%Z])] (filename f) =
     cached_positions [("f.py", [3%Z])] (filename f))
    by (intros f [<-|[]] _; reflexivity).
  split; [exact H | exact (generate_reads_processed_entries _ _ _ _ H)].
Defined.

Lemma final_review_fenced_witness :
  has_backtick ("Review:" ++ nl) = false /\ has_backtick (nl ++ "Done.") = false /\
  (fun _ : string => false) (py_strip (nl ++ "{" ++ q ++ "a" ++ q ++ ": 1}" ++ nl)) = false /\
  json_loads (py_strip (nl ++ "{" ++ q ++ "a" ++ q ++ ": 1}" ++ nl)) = Some (JObj [("a", JInt 1)]) /\
  get_final_review (fun _ => "") (fun _ => false) (fun _ => "")
    (("Review:" ++ nl) ++ json_fence ++ (nl ++ "{" ++ q ++ "a" ++ q ++ ": 1}" ++ nl) ++ fence
       ++ (nl ++ "Done.")) = JObj [("a", JInt 1)].
Proof.
  assert (H : json_loads (py_strip (nl ++ "{" ++ q ++ "a" ++ q ++ ": 1}" ++ nl)) =
              Some (JObj [("a", JInt 1)])) by (vm_compute; reflexivity).
  split; [reflexivity | split; [reflexivity | split; [reflexivity | split; [exact H |]]]].
  apply final_review_fenced; [reflexivity | reflexivity | reflexivity | exact H].
Defined.

(** A reply that opens a ["```json"] block after leading whitespace and
    never closes it (a reply cut short) gives the parse-error dict:
    ["pr_summary"] set to the error text, the three lists empty, and the
    decode error with the reply's first 500 characters in
    ["overall_review_comments"]. *)
Theorem final_review_unclosed_fence (decode_error_text : string -> string)
    (loads_error : string -> bool) (loads_error_text : string -> string)
    (Hnested : loads_error_nested loads_error) (ws post : string) :
  forallb is_ws (list_ascii_of_string ws) = true -> contains post fence = false ->
  get_final_review decode_error_text loads_error loads_error_text
    (ws ++ json_fence ++ post) =
  parse_error_review (decode_error_text (py_strip (ws ++ json_fence ++ post)))
    (ws ++ json_fence ++ post).
Proof. apply final_review_unclosed, Hnested. Qed.

Lemma final_review_unclosed_fence_witness :
  loads_error_nested (fun _ => false) /\
  forallb is_ws (list_ascii_of_string nl) = true /\
  contains (nl ++ "{" ++ q ++ "pr_summary") fence = false /\
  get_final_review (fun _ => "Expecting value") (fun _ => false) (fun _ => "")
    (nl ++ json_fence ++ (nl ++ "{" ++ q ++ "pr_summary")) =
  parse_error_review ((fun _ => "Expecting value") (py_strip (nl ++ json_fence ++ (nl ++ "{" ++ q ++ "pr_summary"))))
    (nl ++ json_fence ++ (nl ++ "{" ++ q ++ "pr_summary")).
Proof.
  assert (Hn : loads_error_nested (fun _ => false)) by (intros t H; discriminate H).
  split; [exact Hn | split; [reflexivity | split; [vm_compute; reflexivity |]]].
  apply (final_review_unclosed_fence (fun _ => "Expecting value") (fun _ => false) (fun _ => "")
           Hn nl (nl ++ "{" ++ q ++ "pr_summary")); [reflexivity | vm_compute; reflexivity].
Defined.

Lemma main_sends_patched_files_witness :
  In CallFinal (fst (bot_main (fun s => if String.eqb s "7" then Some 7%Z else None)
                       (fun _ => true) (fun _ => "") (fun _ => false) (fun _ => "")
                       (sample_bot_world ("```json" ++ nl ++ "{}" ++ nl ++ "```")))) /\
  exists tail, fst (bot_main (fun s => if String.eqb s "7" then Some 7%Z else None)
                      (fun _ => true) (fun _ => "") (fun _ => false) (fun _ => "")
                      (sample_bot_world ("```json" ++ nl ++ "{}" ++ nl ++ "```"))) =
               app (chunk_calls (bw_pr_files (sample_bot_world ("```json" ++ nl ++ "{}" ++ nl ++ "```"))))
                 (CallFinal :: tail).
Proof.
  assert (H : In CallFinal (fst (bot_main (fun s => if String.eqb s "7" then Some 7%Z else None)
                       (fun _ => true) (fun _ => "") (fun _ => false) (fun _ => "")
                       (sample_bot_world ("```json" ++ nl ++ "{}" ++ nl ++ "```")))))
    by (vm_compute; right; right; left; reflexivity).
  split; [exact H | exact (main_sends_patched_files _ _ _ _ _ _ H)].
Defined.

Lemma main_posts_parse_error_on_truncated_reply_witness :
  loads_error_nested (fun _ => false) /\
  In CallFinal (fst (bot_main (fun s => if String.eqb s "7" then Some 7%Z else None)
                       (fun _ => true) (fun _ => "Expecting value") (fun _ => false) (fun _ => "")
                       (sample_bot_world (nl ++ json_fence ++ (nl ++ "{" ++ q ++ "pr_summary"))))) /\
  bot_main (fun s => if String.eqb s "7" then Some 7%Z else None)
    (fun _ => true) (fun _ => "Expecting value") (fun _ => false) (fun _ => "")
    (sample_bot_world (nl ++ json_fence ++ (nl ++ "{" ++ q ++ "pr_summary"))) =
  (app (chunk_calls (bw_pr_files (sample_bot_world (nl ++ json_fence ++ (nl ++ "{" ++ q ++ "pr_summary")))))
     [CallFinal;
      CallPost (parse_error_review
                  ((fun _ => "Expecting value") (py_strip (nl ++ json_fence ++ (nl ++ "{" ++ q ++ "pr_summary"))))
                  (nl ++ json_fence ++ (nl ++ "{" ++ q ++ "pr_summary")))],
   if bw_post_fails (sample_bot_world (nl ++ json_fence ++ (nl ++ "{" ++ q ++ "pr_summary")))
   then BotRaise else BotExit 0).
Proof.
  assert (Hn : loads_error_nested (fun _ => false)) by (intros t H; discriminate H).
  assert (H : In CallFinal (fst (bot_main (fun s => if String.eqb s "7" then Some 7%Z else None)
                       (fun _ => true) (fun _ => "Expecting value") (fun _ => false) (fun _ => "")
                       (sample_bot_world (nl ++ json_fence ++ (nl ++ "{" ++ q ++ "pr_summary"))))))
    by (vm_compute; right; right; left; reflexivity).
  split; [exact Hn | split; [exact H |]].
  apply (main_posts_parse_error_on_truncated_reply _ _ _ _ _ Hn _ nl (nl ++ "{" ++ q ++ "pr_summary") H);
    [reflexivity | reflexivity | vm_compute; reflexivity].
Defined.
